(** * maplibre-gl-js: geo/lng_lat_bounds.ts and util/performance.ts

  A shallow embedding of the bounding-box containment test and of the
  performance-diagnostics layer (the frame recorder [PerformanceUtils] and
  the per-request wrapper [RequestPerformance]), with the properties the
  specification states about them.

  JavaScript numbers are IEEE 754 binary64 values; they are modelled by
  Rocq's primitive [float], whose operations are the same binary64
  operations (round to nearest even, one NaN). *)

From Stdlib Require Import List Bool Arith ZArith Lia String Ascii.
From Stdlib Require Import Floats Uint63.
Import ListNotations.

(** ** JavaScript numbers *)

Module JS.

Definition number := float.
Bind Scope float_scope with number.

(** The relational operators of the language on numbers.  Every
    comparison with NaN is false. *)
Definition gt (a b : number) : bool := (b <? a)%float.
Definition ge (a b : number) : bool := (b <=? a)%float.
Definition le (a b : number) : bool := (a <=? b)%float.
Definition lt (a b : number) : bool := (a <? b)%float.

(** An array length as a number.  Lengths are below 2^32, far inside the
    range in which [of_uint63] is exact. *)
Definition of_nat (n : nat) : number :=
  PrimFloat.of_uint63 (Uint63.of_Z (Z.of_nat n)).

(** Numbers that are neither NaN nor an infinity, and the same on the
    specification side of the binary64 format. *)
Definition finite (a : number) : bool := PrimFloat.is_finite a.

Definition finite_SF (x : spec_float) : bool :=
  match x with
  | S754_zero _ | S754_finite _ _ _ => true
  | _ => false
  end.

(** Zero of either sign, a positive number or plus infinity. *)
Definition nonneg_SF (x : spec_float) : Prop :=
  match x with
  | S754_zero _ => True
  | S754_infinity s | S754_finite s _ _ => s = false
  | S754_nan => False
  end.

(** The order on (exponent, mantissa) pairs by which the binary64
    comparison orders two finite numbers of the same sign. *)
Definition magnitude_compare (e1 : Z) (m1 : positive) (e2 : Z) (m2 : positive)
  : comparison :=
  match Z.compare e1 e2 with
  | Lt => Lt
  | Gt => Gt
  | Eq => Pos.compare_cont Eq m1 m2
  end.

(** What an abrupt completion carries. *)
Inductive Exn : Type :=
| TypeError      (* property read on undefined *)
| SyntaxError.   (* DOMException raised by the User Timing API *)

(** A call either returns a value or throws. *)
Inductive Completion (A : Type) : Type :=
| Normal (a : A)
| Throw (e : Exn).

Arguments Normal {A} a.
Arguments Throw {A} e.

End JS.

Import JS.

(** ** geo/lng_lat_bounds.ts *)

Module LngLatBounds.

(** [LngLat] is declared in geo/lng_lat.ts; only its two fields are used
    here.  [LngLat.convert] returns a [LngLat] instance unchanged, so the
    operations below take their argument as a [LngLat]. *)
Record LngLat : Type := mkLngLat { lng : number; lat : number }.

(** A bounding box; both corners are undefined in the null box. *)
Record t : Type := mk { _sw : option LngLat; _ne : option LngLat }.

Definition of_corners (sw ne : LngLat) : t :=
  {| _sw := Some sw; _ne := Some ne |}.

Definition isEmpty (b : t) : bool :=
  negb (match _sw b, _ne b with Some _, Some _ => true | _, _ => false end).

(** [contains]: reading a field of an undefined corner is a TypeError (with
    either corner undefined some such read is always reached). *)
Definition contains (b : t) (lnglat : LngLat) : Completion bool :=
  match _sw b, _ne b with
  | Some sw, Some ne =>
      let containsLatitude :=
        le (lat sw) (lat lnglat) && le (lat lnglat) (lat ne) in
      let containsLongitude :=
        le (lng sw) (lng lnglat) && le (lng lnglat) (lng ne) in
      let containsLongitude :=
        if gt (lng sw) (lng ne)  (* wrapped coordinates *)
        then ge (lng sw) (lng lnglat) && ge (lng lnglat) (lng ne)
        else containsLongitude in
      Normal (containsLatitude && containsLongitude)
  | _, _ => Throw TypeError
  end.

End LngLatBounds.

(** ** A monad for calls that read and write a store and may throw *)

Module Effect.

Definition M (S A : Type) : Type := S -> Completion A * S.

Definition ret {S A : Type} (a : A) : M S A := fun s => (Normal a, s).

Definition throw {S A : Type} (e : Exn) : M S A := fun s => (Throw e, s).

Definition bind {S A B : Type} (c : M S A) (k : A -> M S B) : M S B :=
  fun s =>
    match c s with
    | (Normal a, s') => k a s'
    | (Throw e, s') => (Throw e, s')
    end.

Definition gets {S A : Type} (f : S -> A) : M S A := fun s => (Normal (f s), s).

Definition modify {S : Type} (f : S -> S) : M S unit := fun s => (Normal tt, f s).

(** The store a call leaves behind, whether it returned or threw. *)
Definition exec {S A : Type} (c : M S A) (s : S) : S := snd (c s).

Definition outcome {S A : Type} (c : M S A) (s : S) : Completion A := fst (c s).

End Effect.

Import Effect.

Declare Scope effect_scope.
Delimit Scope effect_scope with effect.
Notation "x <- c ;; k" := (bind c (fun x => k))
  (at level 61, c at next level, right associativity) : effect_scope.
Notation "c ;; k" := (bind c (fun _ => k))
  (at level 61, right associativity) : effect_scope.
Open Scope effect_scope.

(** ** The host's timing facility: the global [performance] object *)

Module Performance.

(** Modelled from the spec: the entries of the shared timing log.  The
    facility is the host's (High Resolution Time, Performance Timeline and
    User Timing); section 6 of the specification lists what it offers and the
    glossary says what marks, measures and resource timing entries are. *)
Inductive EntryType : Type :=
| MarkEntry
| MeasureEntry
| ResourceEntry.

Record PerformanceEntry : Type := mkEntry {
  name : string;
  entryType : EntryType;
  startTime : number;
  duration : number
}.

(** Modelled from the spec: the facility is a monotonic clock and a log of
    entries in the order they were recorded. *)
Record t : Type := mk { now : number; buffer : list PerformanceEntry }.

Definition initial : t := {| now := 0%float; buffer := [] |}.

Definition is_mark_named (n : string) (e : PerformanceEntry) : bool :=
  match entryType e with MarkEntry => String.eqb (name e) n | _ => false end.

Definition is_measure_named (n : string) (e : PerformanceEntry) : bool :=
  match entryType e with MeasureEntry => String.eqb (name e) n | _ => false end.

Definition is_named (n : string) (e : PerformanceEntry) : bool :=
  String.eqb (name e) n.

Definition mark_entry (n : string) (at_ : number) : PerformanceEntry :=
  {| name := n; entryType := MarkEntry; startTime := at_; duration := 0%float |}.

(** The most recent mark recorded under a name. *)
Definition latest_mark (n : string) (log : list PerformanceEntry)
  : option PerformanceEntry :=
  find (is_mark_named n) (rev log).

Definition has_mark (n : string) (p : t) : Prop :=
  exists e, latest_mark n (buffer p) = Some e.

(** Entries come back in chronological order of their start time; entries
    with the same start time keep the order in which they were recorded. *)
Fixpoint insert_by_startTime (e : PerformanceEntry) (l : list PerformanceEntry)
  : list PerformanceEntry :=
  match l with
  | [] => [e]
  | x :: r =>
      if le (startTime e) (startTime x) then e :: x :: r
      else x :: insert_by_startTime e r
  end.

Definition sort_by_startTime (l : list PerformanceEntry) : list PerformanceEntry :=
  fold_right insert_by_startTime [] l.

Definition entries_named (n : string) (log : list PerformanceEntry)
  : list PerformanceEntry :=
  sort_by_startTime (filter (is_named n) log).

(** Modelled from the spec: [performance.mark(name)] records an instant
    under the name, stamped with the current clock reading. *)
Definition mark (n : string) : M t unit :=
  modify (fun p => {| now := now p; buffer := buffer p ++ [mark_entry n (now p)] |}).

(** The measure between a start mark [s] and an end mark [e]. *)
Definition measure_entry (n : string) (s e : PerformanceEntry) : PerformanceEntry :=
  {| name := n; entryType := MeasureEntry;
     startTime := startTime s;
     duration := (startTime e - startTime s)%float |}.

(** Modelled from the spec: [performance.measure(name, startMark, endMark)]
    records the time between the most recent marks of the two names.  A name
    under which no mark is in the log is the facility's failure mode for a
    missing mark: the call throws (a SyntaxError DOMException). *)
Definition measure (n startMark endMark : string) : M t unit :=
  fun p =>
    match latest_mark endMark (buffer p), latest_mark startMark (buffer p) with
    | Some e, Some s =>
        (Normal tt,
         {| now := now p; buffer := buffer p ++ [measure_entry n s e] |})
    | _, _ => (Throw SyntaxError, p)
    end.

(** Modelled from the spec: [performance.getEntriesByName(name)] returns
    the entries of every type recorded under the name. *)
Definition getEntriesByName (n : string) : M t (list PerformanceEntry) :=
  gets (fun p => entries_named n (buffer p)).

(** Modelled from the spec: [performance.clearMarks(name)] removes the
    marks recorded under the name, and nothing else. *)
Definition clearMarks (n : string) : M t unit :=
  modify (fun p =>
    {| now := now p;
       buffer := filter (fun e => negb (is_mark_named n e)) (buffer p) |}).

(** Modelled from the spec: [performance.clearMeasures(name)] removes the
    measures recorded under the name, and nothing else. *)
Definition clearMeasures (n : string) : M t unit :=
  modify (fun p =>
    {| now := now p;
       buffer := filter (fun e => negb (is_measure_named n e)) (buffer p) |}).

(** What the environment does between two calls of the program: time
    passes, and the host may record resource timing entries of its own. *)
Definition advance (to : number) (p : t) : t :=
  {| now := to; buffer := buffer p |}.

Definition autoPopulate (n : string) (started lasted : number) (p : t) : t :=
  {| now := now p;
     buffer := buffer p ++
       [{| name := n; entryType := ResourceEntry;
           startTime := started; duration := lasted |}] |}.

(** A log that a monotonic clock can have stamped: the clock reads a
    finite time, and no mark carries a later time than it reads now. *)
Definition stamped_by (at_ : number) (e : PerformanceEntry) : bool :=
  match entryType e with
  | MarkEntry => finite (startTime e) && le (startTime e) at_
  | _ => true
  end.

Definition consistent (p : t) : bool :=
  finite (now p) && forallb (stamped_by (now p)) (buffer p).

(** Everything that can happen to the facility: the clock moves on, the host
    records an entry of its own, the program calls one of the operations. *)
Inductive step : t -> t -> Prop :=
| step_advance (p : t) (to : number) :
    finite to = true -> le (now p) to = true -> step p (advance to p)
| step_autoPopulate (p : t) (n : string) (started lasted : number) :
    step p (autoPopulate n started lasted p)
| step_mark (p : t) (n : string) : step p (exec (mark n) p)
| step_measure (p : t) (n a b : string) : step p (exec (measure n a b) p)
| step_clearMarks (p : t) (n : string) : step p (exec (clearMarks n) p)
| step_clearMeasures (p : t) (n : string) : step p (exec (clearMeasures n) p).

Inductive reachable : t -> Prop :=
| reachable_initial : reachable initial
| reachable_step (p q : t) : reachable p -> step p q -> reachable q.

End Performance.

(** ** util/performance.ts: [PerformanceUtils] *)

Module PerformanceUtils.

Record PerformanceMetrics : Type := mkMetrics {
  loadTime : number;
  fullLoadTime : number;
  fps : number;
  percentDroppedFrames : number;
  (** the length of [frameTimes]: an integer, kept as such *)
  totalFrames : nat
}.

Inductive PerformanceMarkers : Type :=
| create
| load
| fullLoad.

(** The string value of an enum member. *)
Definition marker_value (m : PerformanceMarkers) : string :=
  match m with
  | create => "create"
  | load => "load"
  | fullLoad => "fullLoad"
  end.

(** The members of the enum, in the order [for ... in] visits them. *)
Definition all_markers : list PerformanceMarkers := [create; load; fullLoad].

(** The module's two variables and the host's [performance] object. *)
Record World : Type := mkWorld {
  lastFrameTime : option number;
  frameTimes : list number;
  performance : Performance.t
}.

(** The state in which the module is loaded. *)
Definition fresh (p : Performance.t) : World :=
  {| lastFrameTime := None; frameTimes := []; performance := p |}.

Definition minFramerateTarget : number := 60%float.
Definition frameTimeTarget : number := (1000 / minFramerateTarget)%float.

Definition loadTimeKey : string := "loadTime".
Definition fullLoadTimeKey : string := "fullLoadTime".

(** A call on the [performance] object, within the module's world. *)
Definition host {A : Type} (c : M Performance.t A) : M World A :=
  fun w =>
    let (r, p) := c (performance w) in
    (r, {| lastFrameTime := lastFrameTime w;
           frameTimes := frameTimes w;
           performance := p |}).

Definition mark (marker : PerformanceMarkers) : M World unit :=
  host (Performance.mark (marker_value marker)).

Definition frame (timestamp : number) : M World unit :=
  modify (fun w =>
    let currTimestamp := timestamp in
    let frameTimes' :=
      match lastFrameTime w with
      | Some last =>
          let frameTime := (currTimestamp - last)%float in
          frameTimes w ++ [frameTime]
      | None => frameTimes w
      end in
    {| lastFrameTime := Some currTimestamp;
       frameTimes := frameTimes';
       performance := performance w |}).

Fixpoint clearMarks_each (ms : list PerformanceMarkers) : M World unit :=
  match ms with
  | [] => ret tt
  | m :: rest =>
      host (Performance.clearMarks (marker_value m)) ;; clearMarks_each rest
  end.

Definition clearMetrics : M World unit :=
  modify (fun w => {| lastFrameTime := None; frameTimes := [];
                      performance := performance w |}) ;;
  host (Performance.clearMeasures loadTimeKey) ;;
  host (Performance.clearMeasures fullLoadTimeKey) ;;
  clearMarks_each all_markers.

(** [entries[0].duration]: a TypeError when the array is empty. *)
Definition first_duration {S : Type} (entries : list Performance.PerformanceEntry)
  : M S number :=
  match entries with
  | e :: _ => ret (Performance.duration e)
  | [] => throw TypeError
  end.

Definition getPerformanceMetrics : M World PerformanceMetrics :=
  host (Performance.measure loadTimeKey (marker_value create) (marker_value load)) ;;
  host (Performance.measure fullLoadTimeKey (marker_value create) (marker_value fullLoad)) ;;
  loadEntries <- host (Performance.getEntriesByName loadTimeKey) ;;
  loadTime <- first_duration loadEntries ;;
  fullLoadEntries <- host (Performance.getEntriesByName fullLoadTimeKey) ;;
  fullLoadTime <- first_duration fullLoadEntries ;;
  frameTimes <- gets frameTimes ;;
  let totalFrames := List.length frameTimes in
  let avgFrameTime :=
    (fold_left (fun prev curr => prev + curr) frameTimes 0
       / of_nat totalFrames / 1000)%float in
  let fps := (1 / avgFrameTime)%float in
  (* count frames that missed our framerate target *)
  let droppedFrames :=
    fold_left
      (fun acc curr => acc + (curr - frameTimeTarget) / frameTimeTarget)%float
      (filter (fun frameTime => gt frameTime frameTimeTarget) frameTimes)
      0%float in
  let percentDroppedFrames :=
    ((droppedFrames / (of_nat totalFrames + droppedFrames)) * 100)%float in
  ret {| loadTime := loadTime;
         fullLoadTime := fullLoadTime;
         fps := fps;
         percentDroppedFrames := percentDroppedFrames;
         totalFrames := totalFrames |}.

(** A run of [frame] calls, one per timestamp. *)
Fixpoint frames (timestamps : list number) : M World unit :=
  match timestamps with
  | [] => ret tt
  | t :: rest => frame t ;; frames rest
  end.

Fixpoint marks (markers : list PerformanceMarkers) : M World unit :=
  match markers with
  | [] => ret tt
  | m :: rest => mark m ;; marks rest
  end.

End PerformanceUtils.

(** ** util/performance.ts: [RequestPerformance] *)

Module RequestPerformance.

(** [RequestParameters] is declared in util/ajax.ts; only [url] is read. *)
Record RequestParameters : Type := mkRequest { url : string }.

Record Marks : Type := mkMarks {
  start : string;
  end_ : string;
  measure : string
}.

Record t : Type := mk { _marks : Marks }.

Definition constructor (request : RequestParameters) : M Performance.t t :=
  let this :=
    {| _marks := {| start := String.concat "#" [url request; "start"%string];
                    end_ := String.concat "#" [url request; "end"%string];
                    measure := url request |} |} in
  Performance.mark (start (_marks this)) ;;
  ret this.

Definition finish (this : t) : M Performance.t (list Performance.PerformanceEntry) :=
  Performance.mark (end_ (_marks this)) ;;
  resourceTimingData <- Performance.getEntriesByName (measure (_marks this)) ;;
  (* fallback if web worker implementation of perf.getEntriesByName returns empty *)
  if Nat.eqb (List.length resourceTimingData) 0 then
    Performance.measure (measure (_marks this)) (start (_marks this)) (end_ (_marks this)) ;;
    resourceTimingData <- Performance.getEntriesByName (measure (_marks this)) ;;
    (* cleanup *)
    Performance.clearMarks (start (_marks this)) ;;
    Performance.clearMarks (end_ (_marks this)) ;;
    Performance.clearMeasures (measure (_marks this)) ;;
    ret resourceTimingData
  else
    ret resourceTimingData.

(** The result of the first query that [finish] makes, after it has
    recorded its end mark. *)
Definition first_query (this : t) (p : Performance.t)
  : list Performance.PerformanceEntry :=
  Performance.entries_named (measure (_marks this))
    (Performance.buffer (exec (Performance.mark (end_ (_marks this))) p)).

End RequestPerformance.

(** ** Notions used to state and prove the properties *)

Module Views.
Import Performance PerformanceUtils.

(** A world with another log. *)
Definition with_log (w : World) (log : list PerformanceEntry) : World :=
  {| lastFrameTime := lastFrameTime w;
     frameTimes := frameTimes w;
     performance := {| now := now (performance w); buffer := log |} |}.

(** The pure part of [getPerformanceMetrics], as one function of what it
    read. *)
Definition metrics_of (loadTime fullLoadTime : number) (frameTimes : list number)
  : PerformanceMetrics :=
  let totalFrames := List.length frameTimes in
  let avgFrameTime :=
    (fold_left (fun prev curr => prev + curr) frameTimes 0
       / of_nat totalFrames / 1000)%float in
  let droppedFrames :=
    fold_left
      (fun acc curr => acc + (curr - frameTimeTarget) / frameTimeTarget)%float
      (filter (fun frameTime => gt frameTime frameTimeTarget) frameTimes)
      0%float in
  {| loadTime := loadTime;
     fullLoadTime := fullLoadTime;
     fps := (1 / avgFrameTime)%float;
     percentDroppedFrames :=
       ((droppedFrames / (of_nat totalFrames + droppedFrames)) * 100)%float;
     totalFrames := totalFrames |}.

(** Calls that leave the two variables of the recorder alone. *)
Definition keeps_recorder {A : Type} (c : M World A) : Prop :=
  forall w,
    lastFrameTime (exec c w) = lastFrameTime w /\
    frameTimes (exec c w) = frameTimes w.

(** The wrapper that the constructor returns for a request. *)
Definition instance (request : RequestPerformance.RequestParameters)
  : RequestPerformance.t :=
  {| RequestPerformance._marks :=
       {| RequestPerformance.start :=
            String.concat "#" [RequestPerformance.url request; "start"%string];
          RequestPerformance.end_ :=
            String.concat "#" [RequestPerformance.url request; "end"%string];
          RequestPerformance.measure := RequestPerformance.url request |} |}.

Definition start_of (this : RequestPerformance.t) : string :=
  RequestPerformance.start (RequestPerformance._marks this).
Definition end_of (this : RequestPerformance.t) : string :=
  RequestPerformance.end_ (RequestPerformance._marks this).
Definition measure_of (this : RequestPerformance.t) : string :=
  RequestPerformance.measure (RequestPerformance._marks this).

(** The log once [finish] has recorded its end mark. *)
Definition ended (this : RequestPerformance.t) (p : Performance.t)
  : list PerformanceEntry :=
  buffer p ++ [mark_entry (end_of this) (now p)].

(** What the three clearing calls of the fallback keep of a log. *)
Definition cleaned (this : RequestPerformance.t) (log : list PerformanceEntry)
  : list PerformanceEntry :=
  filter (fun e => negb (is_measure_named (measure_of this) e))
    (filter (fun e => negb (is_mark_named (end_of this) e))
       (filter (fun e => negb (is_mark_named (start_of this) e)) log)).

End Views.

(** ** The statements of the specification *)

Module Spec.
Import PerformanceUtils Views.

(** The reading under which a box with west > east is the box that crosses
    the antimeridian from its west edge eastwards to its east edge. *)
Definition in_antimeridian_interval (sw ne p : LngLatBounds.LngLat) : bool :=
  ge (LngLatBounds.lng p) (LngLatBounds.lng sw)
  || le (LngLatBounds.lng p) (LngLatBounds.lng ne).

Definition latitude_within (sw ne p : LngLatBounds.LngLat) : bool :=
  le (LngLatBounds.lat sw) (LngLatBounds.lat p)
  && le (LngLatBounds.lat p) (LngLatBounds.lat ne).

(** "[contains] is true exactly when the longitude lies in the wrapped
    interval that crosses the antimeridian". *)
Definition contains_is_antimeridian_interval_at (sw ne p : LngLatBounds.LngLat)
  : Prop :=
  gt (LngLatBounds.lng sw) (LngLatBounds.lng ne) = true ->
  latitude_within sw ne p = true ->
  LngLatBounds.contains (LngLatBounds.of_corners sw ne) p =
    Normal (in_antimeridian_interval sw ne p).

(** The per-frame budget of a 60 Hz target, in milliseconds. *)
Definition target : number := (1000 / 60)%float.

(** Dropped-frame weighting: every frame time exceeding the target adds its
    fractional overage to the weight; the other frame times add nothing. *)
Fixpoint accumulate_overage (droppedWeight : number) (sample : list number)
  : number :=
  match sample with
  | [] => droppedWeight
  | frameTime :: rest =>
      accumulate_overage
        (if gt frameTime target
         then (droppedWeight + (frameTime - target) / target)%float
         else droppedWeight)
        rest
  end.

Definition droppedWeight (sample : list number) : number :=
  accumulate_overage 0%float sample.

Definition percentDroppedFrames (sample : list number) : number :=
  (droppedWeight sample
     / (of_nat (List.length sample) + droppedWeight sample) * 100)%float.

(** The three lifecycle marks are in the log. *)
Definition lifecycle_marked (p : Performance.t) : Prop :=
  Performance.has_mark (marker_value create) p /\
  Performance.has_mark (marker_value load) p /\
  Performance.has_mark (marker_value fullLoad) p.

(** Timestamps that never go back, starting from the baseline when there is
    one; all of them finite. *)
Fixpoint nondecreasing_from (baseline : option number) (timestamps : list number)
  : bool :=
  match timestamps with
  | [] => true
  | t :: rest =>
      finite t
      && match baseline with
         | Some last => finite last && le last t
         | None => true
         end
      && nondecreasing_from (Some t) rest
  end.

(** [n] further calls of [getPerformanceMetrics], one after the other. *)
Fixpoint polled (n : nat) (w : World) : World :=
  match n with
  | 0 => w
  | S k => polled k (exec getPerformanceMetrics w)
  end.

(** "[clearMetrics()] followed by [getPerformanceMetrics()] yields
    [totalFrames = 0] and a not-a-number [fps]/[percentDroppedFrames]". *)
Definition cleared_metrics_are_nan_at (w : World) : Prop :=
  exists m w',
    (clearMetrics ;; getPerformanceMetrics) w = (Normal m, w') /\
    totalFrames m = 0 /\
    is_nan (fps m) = true /\
    is_nan (PerformanceUtils.percentDroppedFrames m) = true.

(** "Given a FrameTimeSample of [16.67, 16.67, 16.67] ms,
    [percentDroppedFrames] = 0 and [fps] is 60 within tolerance". *)
Definition on_budget_at (tolerance : number) (w : World) : Prop :=
  exists m w',
    getPerformanceMetrics w = (Normal m, w') /\
    PrimFloat.eqb (PerformanceUtils.percentDroppedFrames m) 0%float = true /\
    lt (abs (fps m - 60))%float tolerance = true.

(** "Every element appended to the FrameTimeSample is positive", for a run
    of [frame] calls with the given timestamps. *)
Definition deltas_positive_at (w : World) (timestamps : list number) : Prop :=
  nondecreasing_from (lastFrameTime w) timestamps = true ->
  exists appended,
    frameTimes (exec (frames timestamps) w) = frameTimes w ++ appended /\
    Forall (fun d => lt 0%float d = true) appended.

(** "[finish()] never throws". *)
Definition finish_returns_at (this : RequestPerformance.t) (p : Performance.t)
  : Prop :=
  exists entries p', RequestPerformance.finish this p = (Normal entries, p').

(** A mark or a measure recorded under a name. *)
Definition mark_or_measure_named (n : string) (e : Performance.PerformanceEntry)
  : bool :=
  Performance.is_mark_named n e || Performance.is_measure_named n e.

(** A mark or a measure under one of the three names of a wrapper. *)
Definition residual (this : RequestPerformance.t) (e : Performance.PerformanceEntry)
  : bool :=
  mark_or_measure_named (start_of this) e
  || mark_or_measure_named (end_of this) e
  || mark_or_measure_named (measure_of this) e.

(** "A wrapper whose first query is empty synthesizes a measure, returns a
    one-entry sequence with [duration >= 0], and leaves no marks or
    measures under its names". *)
Definition fallback_cleans_up_at (this : RequestPerformance.t) (p : Performance.t)
  : Prop :=
  RequestPerformance.first_query this p = [] ->
  exists e p',
    RequestPerformance.finish this p = (Normal [e], p') /\
    le 0 (Performance.duration e) = true /\
    forall x, In x (Performance.buffer p') -> residual this x = false.

End Spec.

(** ** Sample inputs *)

Module Samples.
Import PerformanceUtils.

(** A log in which the three lifecycle marks were recorded at 0, 120.5
    and 340.25 ms. *)
Definition marked_log : Performance.t :=
  exec (Performance.mark (marker_value create) ;;
        modify (Performance.advance 120.5) ;;
        Performance.mark (marker_value load) ;;
        modify (Performance.advance 340.25) ;;
        Performance.mark (marker_value fullLoad))
       Performance.initial.

Definition recorded (sample : list number) : World :=
  {| lastFrameTime := Some 1000%float;
     frameTimes := sample;
     performance := marked_log |}.

#[warnings="-inexact-float"]
Definition at_16_67 : list number := [16.67; 16.67; 16.67]%float.

#[warnings="-inexact-float"]
Definition pdf_low : number := 0.0199%float.
#[warnings="-inexact-float"]
Definition pdf_high : number := 0.02%float.
#[warnings="-inexact-float"]
Definition fps_low : number := 59.98%float.
#[warnings="-inexact-float"]
Definition fps_high : number := 59.99%float.

Definition same_instant : list number := [5; 5]%float.

(** A box from 170 east to -170, across the antimeridian, and a point on
    the equator at longitude 175. *)
Definition sw_170 : LngLatBounds.LngLat :=
  {| LngLatBounds.lng := 170%float; LngLatBounds.lat := (-10)%float |}.
Definition ne_m170 : LngLatBounds.LngLat :=
  {| LngLatBounds.lng := (-170)%float; LngLatBounds.lat := 10%float |}.
Definition p_175 : LngLatBounds.LngLat :=
  {| LngLatBounds.lng := 175%float; LngLatBounds.lat := 0%float |}.

Definition tile : RequestPerformance.RequestParameters :=
  {| RequestPerformance.url := "https://demotiles.maplibre.org/tiles/0/0/0.pbf" |}.

(** A worker: the host records no resource timing entries.  A request
    starts at 10 ms and finishes at 42.5 ms. *)
Definition worker_at_finish : Performance.t :=
  exec (modify (Performance.advance 10) ;;
        RequestPerformance.constructor tile ;;
        modify (Performance.advance 42.5))
       Performance.initial.

(** The main thread: by the time the request finishes the host has recorded
    a resource timing entry under its URL. *)
Definition main_thread_at_finish : Performance.t :=
  exec (modify (Performance.advance 10) ;;
        RequestPerformance.constructor tile ;;
        modify (Performance.advance 40) ;;
        modify (Performance.autoPopulate (RequestPerformance.url tile) 10.5 29) ;;
        modify (Performance.advance 42.5))
       Performance.initial.

Definition before_request : Performance.t :=
  Performance.advance 10 Performance.initial.

(** A worker in which the same URL is requested twice at once: both
    wrappers are constructed, then the first one finishes. *)
Definition after_sibling_finished : Performance.t :=
  exec (modify (Performance.advance 10) ;;
        first <- RequestPerformance.constructor tile ;;
        modify (Performance.advance 12) ;;
        RequestPerformance.constructor tile ;;
        modify (Performance.advance 30.5) ;;
        RequestPerformance.finish first ;;
        modify (Performance.advance 31))
       Performance.initial.

End Samples.

(** ** The language's [Math.min] and [Math.max] *)

Module JSMath.

(** [Math.min] and [Math.max] of two numbers: NaN when either argument is
    NaN, and -0 counts as smaller than +0. *)
Definition min (a b : number) : number :=
  if is_nan a || is_nan b then nan
  else if lt a b then a
  else if lt b a then b
  else if get_sign a then a else b.

Definition max (a b : number) : number :=
  if is_nan a || is_nan b then nan
  else if lt a b then b
  else if lt b a then a
  else if get_sign a then b else a.

End JSMath.

(** ** geo/lng_lat_bounds.ts: [extend] and the corner getters *)

Module LngLatBoundsOps.
Import LngLatBounds.

(** The null box, as [new LngLatBounds()] leaves it. *)
Definition null : t := {| _sw := None; _ne := None |}.

(** The arguments that [extend] recognises by their class.  Its other
    branches (arrays, plain objects) turn their argument into one of these
    with [LngLat.convert], which geo/lng_lat.ts declares, and call [extend]
    again. *)
Inductive Extent : Type :=
| APoint (p : LngLat)    (* obj instanceof LngLat *)
| ABounds (b : t).       (* obj instanceof LngLatBounds *)

(** A completion as a call that leaves the store alone. *)
Definition lift {S A : Type} (c : Completion A) : M S A := fun s => (c, s).

(** Reading a field of a corner: a TypeError when the corner is undefined. *)
Definition field {A : Type} (corner : option LngLat) (f : LngLat -> A) : M t A :=
  match corner with
  | Some c => ret (f c)
  | None => throw TypeError
  end.

(** [this._sw.f] and [this._ne.f]. *)
Definition read_sw {A : Type} (f : LngLat -> A) : M t A :=
  sw <- gets _sw ;; field sw f.
Definition read_ne {A : Type} (f : LngLat -> A) : M t A :=
  ne <- gets _ne ;; field ne f.

(** [a && b] on booleans: the right operand is evaluated only when the
    left one is true. *)
Definition and_then {S : Type} (a b : M S bool) : M S bool :=
  x <- a ;; if x then b else ret false.

(** [contains] statement by statement, with every read of a corner where
    the code makes it and the short circuit of [&&]. *)
Definition contains_by_reads (lnglat : LngLat) : M t bool :=
  let lng_ := lng lnglat in
  let lat_ := lat lnglat in
  containsLatitude <-
    and_then (s <- read_sw lat ;; ret (le s lat_))
             (n <- read_ne lat ;; ret (le lat_ n)) ;;
  containsLongitude <-
    and_then (s <- read_sw lng ;; ret (le s lng_))
             (n <- read_ne lng ;; ret (le lng_ n)) ;;
  wrapped <- (s <- read_sw lng ;; n <- read_ne lng ;; ret (gt s n)) ;;
  containsLongitude <-
    (if wrapped : bool
     then and_then (s <- read_sw lng ;; ret (ge s lng_))
                   (n <- read_ne lng ;; ret (ge lng_ n))
     else ret containsLongitude) ;;
  ret (containsLatitude && containsLongitude).

Section Constructor.

(** [new LngLat(lng, lat)]: the constructor is declared in geo/lng_lat.ts
    and may reject its arguments. *)
Variable new_LngLat : number -> number -> Completion LngLat.

(** What the properties below ask of the constructor: the instance it
    returns holds the two arguments. *)
Definition stores_arguments : Prop :=
  forall a b c, new_LngLat a b = Normal c -> lng c = a /\ lat c = b.

(** [extend]; the store is [this].  The corners are updated in place, one
    field after the other, so a TypeError on the undefined northeast corner
    comes after the southwest corner has been written.  Every field of the
    argument is read before the write that could change it, so a point
    that is one of the corners of [this] gives the same result as a copy of
    it. *)
Definition extend (obj : Extent) : M t unit :=
  fun this =>
    let sw := _sw this in
    let ne := _ne this in
    let corners :=
      match obj with
      | APoint p => Some (p, p)
      | ABounds o =>
          match _sw o, _ne o with
          | Some sw2, Some ne2 => Some (sw2, ne2)
          | _, _ => None   (* if (!sw2 || !ne2) return this *)
          end
      end in
    match corners with
    | None => (Normal tt, this)
    | Some (sw2, ne2) =>
        match sw, ne with
        | None, None =>
            match new_LngLat (lng sw2) (lat sw2) with
            | Throw e => (Throw e, this)
            | Normal c1 =>
                match new_LngLat (lng ne2) (lat ne2) with
                | Throw e => (Throw e, {| _sw := Some c1; _ne := None |})
                | Normal c2 => (Normal tt, {| _sw := Some c1; _ne := Some c2 |})
                end
            end
        | None, Some _ => (Throw TypeError, this)
        | Some s, _ =>
            let s' := {| lng := JSMath.min (lng sw2) (lng s);
                         lat := JSMath.min (lat sw2) (lat s) |} in
            match ne with
            | None => (Throw TypeError, {| _sw := Some s'; _ne := None |})
            | Some n =>
                (Normal tt,
                 {| _sw := Some s';
                    _ne := Some {| lng := JSMath.max (lng ne2) (lng n);
                                   lat := JSMath.max (lat ne2) (lat n) |} |})
            end
        end
    end.

Definition getSouthWest : M t (option LngLat) := gets _sw.
Definition getNorthEast : M t (option LngLat) := gets _ne.

Definition getWest : M t number := sw <- gets _sw ;; field sw lng.
Definition getSouth : M t number := sw <- gets _sw ;; field sw lat.
Definition getEast : M t number := ne <- gets _ne ;; field ne lng.
Definition getNorth : M t number := ne <- gets _ne ;; field ne lat.

Definition getNorthWest : M t LngLat :=
  west <- getWest ;; north <- getNorth ;; lift (new_LngLat west north).

Definition getSouthEast : M t LngLat :=
  east <- getEast ;; south <- getSouth ;; lift (new_LngLat east south).

End Constructor.

(** Both coordinates are numbers (not NaN). *)
Definition number_valued (p : LngLat) : bool :=
  negb (is_nan (lng p)) && negb (is_nan (lat p)).

Definition extent_number_valued (obj : Extent) : bool :=
  match obj with
  | APoint p => number_valued p
  | ABounds o =>
      match _sw o, _ne o with
      | Some sw2, Some ne2 => number_valued sw2 && number_valued ne2
      | _, _ => true
      end
  end.

(** The box after [extend] on a box with both corners. *)
Definition grown (sw ne sw2 ne2 : LngLat) : t :=
  of_corners
    {| lng := JSMath.min (lng sw2) (lng sw); lat := JSMath.min (lat sw2) (lat sw) |}
    {| lng := JSMath.max (lng ne2) (lng ne); lat := JSMath.max (lat ne2) (lat ne) |}.

(** The same place, as the comparison of the language sees it. *)
Definition same_place (p q : LngLat) : bool :=
  PrimFloat.eqb (lng p) (lng q) && PrimFloat.eqb (lat p) (lat q).

End LngLatBoundsOps.

(** ** What the recorder leaves behind *)

Module RecorderSpec.
Import PerformanceUtils.

(** The differences between consecutive timestamps, from a baseline on. *)
Fixpoint deltas (last : number) (timestamps : list number) : list number :=
  match timestamps with
  | [] => []
  | t :: rest => (t - last)%float :: deltas t rest
  end.

Definition deltas_from (baseline : option number) (timestamps : list number)
  : list number :=
  match baseline, timestamps with
  | Some last, _ => deltas last timestamps
  | None, t :: rest => deltas t rest
  | None, [] => []
  end.

(** What [clearMetrics] deletes from the log. *)
Definition cleared (e : Performance.PerformanceEntry) : bool :=
  Performance.is_measure_named loadTimeKey e
  || Performance.is_measure_named fullLoadTimeKey e
  || existsb (fun m => Performance.is_mark_named (marker_value m) e) all_markers.

(** No frame of the sample is over the budget. *)
Definition within_budget (sample : list number) : bool :=
  forallb (fun frameTime => negb (gt frameTime frameTimeTarget)) sample.

(** The log after the two [measure] calls of [getPerformanceMetrics]. *)
Definition measured (log : list Performance.PerformanceEntry)
    (c l f : Performance.PerformanceEntry) : list Performance.PerformanceEntry :=
  (log ++ [Performance.measure_entry loadTimeKey c l])
    ++ [Performance.measure_entry fullLoadTimeKey c f].

End RecorderSpec.

(** ** A request under way *)

Module Lifecycle.
Import Views RequestPerformance.

(** What may go on around a request that is under way without touching its
    wrapper: time passes, the host records entries, other wrappers are
    constructed, wrappers of other URLs finish, the recorder is used. *)
Inductive undisturbed (b : RequestParameters) : Performance.t -> Performance.t -> Prop :=
| und_advance (p : Performance.t) (to : number) :
    undisturbed b p (Performance.advance to p)
| und_autoPopulate (p : Performance.t) (n : string) (started lasted : number) :
    undisturbed b p (Performance.autoPopulate n started lasted p)
| und_constructor (p : Performance.t) (r : RequestParameters) :
    undisturbed b p (exec (constructor r) p)
| und_finish (p : Performance.t) (a : RequestParameters) :
    url a <> url b -> undisturbed b p (exec (finish (instance a)) p)
| und_mark (w : PerformanceUtils.World) (m : PerformanceUtils.PerformanceMarkers) :
    undisturbed b (PerformanceUtils.performance w)
      (PerformanceUtils.performance (exec (PerformanceUtils.mark m) w))
| und_clearMetrics (w : PerformanceUtils.World) :
    undisturbed b (PerformanceUtils.performance w)
      (PerformanceUtils.performance (exec PerformanceUtils.clearMetrics w))
| und_getPerformanceMetrics (w : PerformanceUtils.World) :
    undisturbed b (PerformanceUtils.performance w)
      (PerformanceUtils.performance (exec PerformanceUtils.getPerformanceMetrics w)).

Inductive since (b : RequestParameters) : Performance.t -> Performance.t -> Prop :=
| since_start (p : Performance.t) : since b p p
| since_step (p q r : Performance.t) :
    since b p q -> undisturbed b q r -> since b p r.

(** No entry of the log is under the URL of the request, and no mark under
    either of the two names its wrapper derives from the URL. *)
Definition unused (r : RequestParameters) (p : Performance.t) : Prop :=
  forall x, In x (Performance.buffer p) ->
    Performance.is_named (url r) x = false /\
    Performance.is_mark_named (start_of (instance r)) x = false /\
    Performance.is_mark_named (end_of (instance r)) x = false.

End Lifecycle.

(** ** More sample inputs *)

Module MoreSamples.
Import LngLatBounds.

(** A constructor that accepts every pair of numbers. *)
Definition accepting (a b : number) : Completion LngLat :=
  Normal {| lng := a; lat := b |}.

(** A box around Manhattan, a point north-east of it and a point in it. *)
#[warnings="-inexact-float"]
Definition sw_nyc : LngLat := {| lng := (-73.9876)%float; lat := 40.7661%float |}.
#[warnings="-inexact-float"]
Definition ne_nyc : LngLat := {| lng := (-73.9397)%float; lat := 40.8002%float |}.
#[warnings="-inexact-float"]
Definition p_bronx : LngLat := {| lng := (-73.8648)%float; lat := 40.8448%float |}.
#[warnings="-inexact-float"]
Definition p_park : LngLat := {| lng := (-73.9567)%float; lat := 40.7789%float |}.

(** A box in the Bronx that overlaps none of the first one. *)
#[warnings="-inexact-float"]
Definition sw_bronx : LngLat := {| lng := (-73.9339)%float; lat := 40.7855%float |}.
#[warnings="-inexact-float"]
Definition ne_bronx : LngLat := {| lng := (-73.7654)%float; lat := 40.9153%float |}.

(** A worker in which the same URL is requested twice at once, at 10 and
    at 12 ms, and neither request has finished by 30.5 ms. *)
Definition siblings_under_way : Performance.t :=
  exec (modify (Performance.advance 10) ;;
        RequestPerformance.constructor Samples.tile ;;
        modify (Performance.advance 12) ;;
        RequestPerformance.constructor Samples.tile ;;
        modify (Performance.advance 30.5))
       Performance.initial.

(** Frames at 60 Hz and faster, all within the budget. *)
Definition smooth : list number := [16; 16.5; 8; 16.5]%float.

(** Another request, under way while the tile is fetched. *)
Definition glyphs : RequestPerformance.RequestParameters :=
  {| RequestPerformance.url := "https://demotiles.maplibre.org/font/0-255.pbf" |}.

(** A worker in which, while the tile is under way, the glyphs are
    requested and arrive, and the recorder is polled and cleared. *)
Definition busy_worker : Performance.t :=
  PerformanceUtils.performance
    (exec PerformanceUtils.clearMetrics
       (PerformanceUtils.fresh
          (exec (RequestPerformance.finish (Views.instance glyphs))
             (Performance.advance 30
                (exec (RequestPerformance.constructor glyphs)
                   (Performance.advance 12
                      (exec (RequestPerformance.constructor Samples.tile)
                         Samples.before_request))))))).

End MoreSamples.

(** ** Binary64 numbers: subtraction and order *)

Module NumberFacts.

Local Open Scope Z_scope.

(** [SpecFloat] is stated over the core integer operations; the lemmas of
    [ZArith] and [lia] know them under their [Z] names. *)
Ltac zarith_names :=
  change IntDef.Z.sub with Z.sub in *;
  change IntDef.Z.opp with Z.opp in *;
  change IntDef.Z.add with Z.add in *;
  change IntDef.Z.min with Z.min in *;
  change IntDef.Z.max with Z.max in *.

Lemma digits2_pos_bounds (m : positive) :
  2 ^ (Zpos (digits2_pos m) - 1) <= Zpos m < 2 ^ Zpos (digits2_pos m).
Proof.
  induction m as [m IH | m IH |]; simpl digits2_pos.
  - rewrite Pos2Z.inj_succ.
    replace (Z.succ (Z.pos (digits2_pos m)) - 1) with (Z.succ (Z.pos (digits2_pos m) - 1)) by lia.
    rewrite !Z.pow_succ_r by lia. lia.
  - rewrite Pos2Z.inj_succ.
    replace (Z.succ (Z.pos (digits2_pos m)) - 1) with (Z.succ (Z.pos (digits2_pos m) - 1)) by lia.
    rewrite !Z.pow_succ_r by lia. lia.
  - simpl. lia.
Qed.

Lemma iter_xO_pow2 (m d : positive) :
  Zpos (Pos.iter xO m d) = Zpos m * 2 ^ Zpos d.
Proof.
  induction d as [| d IH] using Pos.peano_ind.
  - simpl. lia.
  - rewrite Pos.iter_succ, Pos2Z.inj_succ, Z.pow_succ_r by lia.
    rewrite Pos2Z.inj_xO, IH. lia.
Qed.

Lemma shl_align_value (m : positive) (e e' : Z) :
  e' <= e -> Zpos (fst (shl_align m e e')) = Zpos m * 2 ^ (e - e').
Proof.
  intros Hle. unfold shl_align.
  destruct (e' - e) as [| d | d] eqn:Hd; simpl fst.
  - replace (e - e') with 0 by lia. simpl. lia.
  - lia.
  - rewrite iter_xO_pow2. f_equal. f_equal. lia.
Qed.

Lemma shr_1_nonneg mrs : 0 <= shr_m mrs -> 0 <= shr_m (shr_1 mrs).
Proof.
  destruct mrs as [m r s]; simpl.
  destruct m as [| [p | p |] | p]; simpl; lia.
Qed.

Lemma iter_pos_invariant {A} (P : A -> Prop) (f : A -> A) :
  (forall x, P x -> P (f x)) -> forall n x, P x -> P (iter_pos f n x).
Proof.
  intros Hf n; induction n as [n IH | n IH |]; intros x Hx; simpl; auto.
Qed.

Lemma shr_nonneg mrs e n : 0 <= shr_m mrs -> 0 <= shr_m (fst (shr mrs e n)).
Proof.
  intros H. unfold shr. destruct n; simpl; auto.
  apply (iter_pos_invariant (fun r => 0 <= shr_m r)); auto using shr_1_nonneg.
Qed.

Lemma shr_fexp_nonneg p e m ex l :
  0 <= m -> 0 <= shr_m (fst (shr_fexp p e m ex l)).
Proof.
  intros H. unfold shr_fexp. apply shr_nonneg.
  destruct l as [| []]; simpl; assumption.
Qed.

Lemma round_nearest_even_nonneg m l : 0 <= m -> 0 <= round_nearest_even m l.
Proof.
  intros H. unfold round_nearest_even.
  destruct l as [| []]; try destruct (Z.even m); lia.
Qed.

Lemma binary_round_aux_nonneg p e m ex l :
  0 <= m -> nonneg_SF (binary_round_aux p e false m ex l).
Proof.
  intros H. unfold binary_round_aux.
  pose proof (shr_fexp_nonneg p e m ex l H) as H1.
  destruct (shr_fexp p e m ex l) as [mrs' e'] eqn:E1. simpl fst in H1.
  pose proof (shr_fexp_nonneg p e (round_nearest_even (shr_m mrs') (loc_of_shr_record mrs')) e' loc_Exact
                (round_nearest_even_nonneg _ _ H1)) as H2.
  destruct (shr_fexp p e (round_nearest_even (shr_m mrs') (loc_of_shr_record mrs')) e' loc_Exact)
    as [mrs'' e''] eqn:E2. simpl fst in H2.
  destruct (shr_m mrs'') as [| q | q]; simpl;
    [exact I | destruct (e'' <=? e - p); reflexivity | lia].
Qed.

Lemma binary_normalize_nonneg p e m ex :
  0 <= m -> nonneg_SF (binary_normalize p e m ex false).
Proof.
  intros H. unfold binary_normalize. destruct m as [| q | q]; simpl; auto; try lia.
  unfold binary_round.
  destruct (shl_align q ex (fexp p e (Z.pos (digits2_pos q) + ex))) as [mz ez].
  apply binary_round_aux_nonneg. lia.
Qed.

Lemma bounded_digits m e :
  bounded prec emax m e = true ->
  Zpos (digits2_pos m) <= 53 /\ -1074 <= e /\
  (-1074 < e -> Zpos (digits2_pos m) = 53).
Proof.
  unfold bounded, canonical_mantissa, fexp, SpecFloat.emin, prec, emax.
  intros H. apply andb_true_iff in H. destruct H as [H _].
  apply Z.eqb_eq in H. lia.
Qed.

(** Among canonical mantissas the one with the larger exponent is larger. *)
Lemma bounded_lt_exponent ma ea mb eb :
  bounded prec emax ma ea = true -> bounded prec emax mb eb = true ->
  ea < eb -> Zpos ma < Zpos mb * 2 ^ (eb - ea).
Proof.
  intros Ha Hb Hlt.
  destruct (bounded_digits _ _ Ha) as (Hda & Hea & _).
  destruct (bounded_digits _ _ Hb) as (_ & _ & Hdb).
  specialize (Hdb ltac:(lia)).
  pose proof (digits2_pos_bounds ma) as [_ Hma].
  pose proof (digits2_pos_bounds mb) as [Hmb _].
  rewrite Hdb in Hmb. simpl in Hmb.
  assert (Zpos ma < 2 ^ 53).
  { eapply Z.lt_le_trans; [exact Hma |]. apply Z.pow_le_mono_r; lia. }
  assert (2 ^ 1 <= 2 ^ (eb - ea)) by (apply Z.pow_le_mono_r; lia).
  change (2 ^ 53) with 9007199254740992 in *.
  change (2 ^ (53 - 1)) with 4503599627370496 in *.
  change (2 ^ 1) with 2 in *. nia.
Qed.

Lemma SFsub_nonneg x y :
  valid_binary x = true -> valid_binary y = true ->
  finite_SF x = true -> finite_SF y = true ->
  SFleb x y = true -> nonneg_SF (SF64sub y x).
Proof.
  intros Vx Vy Fx Fy Hle.
  destruct x as [sx | sx | | sx mx ex]; try discriminate Fx;
  destruct y as [sy | sy | | sy my ey]; try discriminate Fy;
  unfold SFleb, SFcompare in Hle; unfold SF64sub, SFsub.
  - destruct sy, sx; exact I.
  - destruct sy; [discriminate Hle | reflexivity].
  - destruct sx; [reflexivity | discriminate Hle].
  - simpl in Vx, Vy. apply binary_normalize_nonneg.
    rewrite !shl_align_value by lia.
    set (ez := Z.min ey ex).
    assert (Hx : 0 < Zpos mx * 2 ^ (ex - ez)) by (apply Z.mul_pos_pos; [| apply Z.pow_pos_nonneg]; lia).
    assert (Hy : 0 < Zpos my * 2 ^ (ey - ez)) by (apply Z.mul_pos_pos; [| apply Z.pow_pos_nonneg]; lia).
    destruct sx, sy; unfold cond_Zopp; zarith_names; try discriminate Hle; try lia.
    + (* both negative: |y| <= |x| *)
      destruct (Z.compare_spec ex ey) as [E | E | E]; try discriminate Hle.
      * subst ey ez. rewrite Z.min_id, Z.sub_diag in *. 
        destruct (Pos.compare_cont Eq mx my) eqn:C; try discriminate Hle.
        -- apply Pos.compare_eq in C. subst. lia.
        -- assert (Hm : (my < mx)%positive) by (apply Pos.compare_gt_iff; exact C). lia.
      * pose proof (bounded_lt_exponent _ _ _ _ Vy Vx E).
        clear Hx Hy; subst ez. rewrite Z.min_l by lia. rewrite Z.sub_diag.
        change (2 ^ 0) with 1. generalize dependent (Z.pos mx * 2 ^ (ex - ey)). intros; lia.
    + destruct (Z.compare_spec ex ey) as [E | E | E]; try discriminate Hle.
      * subst ey ez. rewrite Z.min_id, Z.sub_diag in *.
        destruct (Pos.compare_cont Eq mx my) eqn:C; try discriminate Hle.
        -- apply Pos.compare_eq in C. subst. lia.
        -- assert (Hm : (mx < my)%positive) by exact C. lia.
      * pose proof (bounded_lt_exponent _ _ _ _ Vx Vy E).
        clear Hx Hy; subst ez. rewrite Z.min_r by lia. rewrite Z.sub_diag.
        change (2 ^ 0) with 1. generalize dependent (Z.pos my * 2 ^ (ey - ex)). intros; lia.
Qed.

Lemma nonneg_SF_leb r : nonneg_SF r -> SFleb (S754_zero false) r = true.
Proof. destruct r as [s | s | | s m e]; simpl; intros H; subst; auto; contradiction. Qed.

Lemma is_finite_SF (a : float) :
  finite a = true -> finite_SF (Prim2SF a) = true.
Proof.
  unfold finite, is_finite, is_nan, is_infinity.
  rewrite !FloatAxioms.eqb_spec, abs_spec.
  change (Prim2SF infinity) with (S754_infinity false).
  destruct (Prim2SF a) as [[] | [] | | [] m e]; cbn; intros H;
    try reflexivity; discriminate H.
Qed.

Lemma sub_nonneg (a b : float) :
  finite a = true -> finite b = true ->
  le a b = true -> le 0%float (b - a)%float = true.
Proof.
  unfold le. intros Fa Fb Hle. rewrite FloatAxioms.leb_spec in *. rewrite FloatAxioms.sub_spec.
  change (Prim2SF 0) with (S754_zero false).
  apply nonneg_SF_leb, SFsub_nonneg; auto using Prim2SF_valid, is_finite_SF.
Qed.

(** *** The order of binary64 numbers *)

Lemma magnitude_compare_le e1 m1 e2 m2 :
  magnitude_compare e1 m1 e2 m2 <> Gt <-> e1 < e2 \/ (e1 = e2 /\ (m1 <= m2)%positive).
Proof.
  unfold magnitude_compare.
  destruct (Z.compare_spec e1 e2) as [E | E | E].
  - fold (Pos.compare m1 m2). rewrite <- Pos.compare_le_iff. intuition lia.
  - intuition (try lia; discriminate).
  - intuition (try lia; congruence).
Qed.

Lemma magnitude_compare_ge e1 m1 e2 m2 :
  magnitude_compare e1 m1 e2 m2 <> Lt <-> e2 < e1 \/ (e1 = e2 /\ (m2 <= m1)%positive).
Proof.
  unfold magnitude_compare.
  destruct (Z.compare_spec e1 e2) as [E | E | E].
  - fold (Pos.compare m1 m2). rewrite <- Pos.compare_ge_iff. intuition lia.
  - intuition (try lia; congruence).
  - intuition (try lia; discriminate).
Qed.

Lemma SFleb_finite_finite s1 m1 e1 s2 m2 e2 :
  SFleb (S754_finite s1 m1 e1) (S754_finite s2 m2 e2) = true <->
  match s1, s2 with
  | true, false => True
  | false, true => False
  | false, false => magnitude_compare e1 m1 e2 m2 <> Gt
  | true, true => magnitude_compare e1 m1 e2 m2 <> Lt
  end.
Proof.
  unfold SFleb, SFcompare, magnitude_compare.
  destruct s1, s2; try (intuition; discriminate).
  - destruct (Z.compare e1 e2); try (intuition; discriminate).
    destruct (Pos.compare_cont Eq m1 m2); simpl; intuition; discriminate.
  - destruct (Z.compare e1 e2); try (intuition; discriminate).
    destruct (Pos.compare_cont Eq m1 m2); simpl; intuition; discriminate.
Qed.

Lemma SFleb_trans x y z :
  SFleb x y = true -> SFleb y z = true -> SFleb x z = true.
Proof.
  destruct x as [sx | sx | | sx mx ex], y as [sy | sy | | sy my ey],
           z as [sz | sz | | sz mz ez];
    try (destruct sx, sy, sz; simpl; intros; solve [reflexivity | discriminate ]);
    try (destruct sx, sy; simpl; intros; solve [reflexivity | discriminate ]);
    try (destruct sx, sz; simpl; intros; solve [reflexivity | discriminate ]);
    try (destruct sy, sz; simpl; intros; solve [reflexivity | discriminate ]);
    try (destruct sx; simpl; intros; solve [reflexivity | discriminate ]);
    try (destruct sy; simpl; intros; solve [reflexivity | discriminate ]);
    try (destruct sz; simpl; intros; solve [reflexivity | discriminate ]);
    try (simpl; intros; solve [reflexivity | discriminate ]).
  rewrite !SFleb_finite_finite.
  destruct sx, sy, sz; try tauto;
    rewrite ?magnitude_compare_le, ?magnitude_compare_ge; lia.
Qed.

Lemma SFleb_refl x : finite_SF x = true -> SFleb x x = true.
Proof.
  destruct x as [s | s | | s m e]; try discriminate; intros _; [reflexivity |].
  apply SFleb_finite_finite.
  destruct s; rewrite ?magnitude_compare_le, ?magnitude_compare_ge; lia.
Qed.

Lemma le_trans (a b c : float) :
  le a b = true -> le b c = true -> le a c = true.
Proof. unfold le. rewrite !FloatAxioms.leb_spec. apply SFleb_trans. Qed.

Lemma le_refl (a : float) : finite a = true -> le a a = true.
Proof.
  intros H. unfold le. rewrite FloatAxioms.leb_spec.
  now apply SFleb_refl, is_finite_SF.
Qed.

End NumberFacts.

(** ** The timing log *)

Module PerformanceFacts.
Import Performance.

Lemma latest_mark_snoc (n : string) (log : list PerformanceEntry) (x : PerformanceEntry) :
  latest_mark n (log ++ [x]) =
    if is_mark_named n x then Some x else latest_mark n log.
Proof. unfold latest_mark. rewrite rev_unit. reflexivity. Qed.

Lemma latest_mark_snoc_mark (n : string) (log : list PerformanceEntry) (at_ : number) :
  latest_mark n (log ++ [mark_entry n at_]) = Some (mark_entry n at_).
Proof.
  rewrite latest_mark_snoc. unfold is_mark_named; simpl.
  now rewrite String.eqb_refl.
Qed.

Lemma latest_mark_is_mark (n : string) (log : list PerformanceEntry) (e : PerformanceEntry) :
  latest_mark n log = Some e -> In e log /\ is_mark_named n e = true.
Proof.
  unfold latest_mark. intros H. apply find_some in H.
  destruct H as [Hin Hm]. split; [now apply in_rev | exact Hm].
Qed.

Lemma latest_mark_none (n : string) (log : list PerformanceEntry) :
  latest_mark n log = None <-> forall e, In e log -> is_mark_named n e = false.
Proof.
  unfold latest_mark. split.
  - intros H e Hin. apply (find_none _ _ H). now apply in_rev in Hin.
  - intros H. destruct (find (is_mark_named n) (rev log)) as [e |] eqn:E; auto.
    apply find_some in E. destruct E as [Hin Hm].
    apply in_rev in Hin. rewrite (H e Hin) in Hm. discriminate Hm.
Qed.

Lemma length_insert_by_startTime (e : PerformanceEntry) (l : list PerformanceEntry) :
  List.length (insert_by_startTime e l) = S (List.length l).
Proof.
  induction l as [| x r IH]; simpl; auto.
  destruct (le (startTime e) (startTime x)); simpl; auto.
Qed.

Lemma length_sort_by_startTime (l : list PerformanceEntry) :
  List.length (sort_by_startTime l) = List.length l.
Proof.
  induction l as [| x r IH]; simpl; auto.
  now rewrite length_insert_by_startTime, IH.
Qed.

Lemma in_insert_by_startTime (e x : PerformanceEntry) (l : list PerformanceEntry) :
  In x (insert_by_startTime e l) <-> x = e \/ In x l.
Proof.
  induction l as [| y r IH]; simpl.
  - intuition.
  - destruct (le (startTime e) (startTime y)); simpl; rewrite ?IH; intuition.
Qed.

Lemma in_sort_by_startTime (x : PerformanceEntry) (l : list PerformanceEntry) :
  In x (sort_by_startTime l) <-> In x l.
Proof.
  induction l as [| y r IH]; simpl; [tauto |].
  rewrite in_insert_by_startTime, IH. intuition.
Qed.

Lemma in_entries_named (n : string) (x : PerformanceEntry) (log : list PerformanceEntry) :
  In x (entries_named n log) <-> In x log /\ is_named n x = true.
Proof. unfold entries_named. now rewrite in_sort_by_startTime, filter_In. Qed.

Lemma entries_named_nil (n : string) (log : list PerformanceEntry) :
  entries_named n log = [] <-> forall x, In x log -> is_named n x = false.
Proof.
  split.
  - intros H x Hin. destruct (is_named n x) eqn:E; auto.
    assert (Hx : In x (entries_named n log)) by (apply in_entries_named; auto).
    rewrite H in Hx. destruct Hx.
  - intros H. destruct (entries_named n log) as [| y r] eqn:E; auto.
    assert (Hy : In y (entries_named n log)) by (rewrite E; now left).
    apply in_entries_named in Hy. destruct Hy as [Hin Hn].
    rewrite (H y Hin) in Hn. discriminate Hn.
Qed.

Lemma filter_none_nil {A : Type} (f : A -> bool) (l : list A) :
  (forall x, In x l -> f x = false) -> filter f l = [].
Proof.
  induction l as [| x r IH]; simpl; intros H; auto.
  rewrite (H x (or_introl eq_refl)). apply IH. intros y Hy. apply H. now right.
Qed.

(** A name queried in vain, then used once: the query now finds that one
    entry. *)
Lemma entries_named_snoc_fresh (n : string) (log : list PerformanceEntry) (x : PerformanceEntry) :
  entries_named n log = [] -> is_named n x = true ->
  entries_named n (log ++ [x]) = [x].
Proof.
  intros Hnil Hx. unfold entries_named. rewrite filter_app. simpl. rewrite Hx.
  rewrite filter_none_nil by (now apply entries_named_nil). reflexivity.
Qed.

Lemma is_mark_named_mark_entry (n m : string) (at_ : number) :
  is_mark_named n (mark_entry m at_) = String.eqb m n.
Proof. reflexivity. Qed.

Lemma is_measure_named_measure_entry (n m : string) (s e : PerformanceEntry) :
  is_measure_named n (measure_entry m s e) = String.eqb m n.
Proof. reflexivity. Qed.

Lemma is_measure_named_is_named (n : string) (e : PerformanceEntry) :
  is_measure_named n e = true -> is_named n e = true.
Proof. unfold is_measure_named, is_named. destruct (entryType e); auto; discriminate. Qed.

Lemma is_mark_named_is_named (n : string) (e : PerformanceEntry) :
  is_mark_named n e = true -> is_named n e = true.
Proof. unfold is_mark_named, is_named. destruct (entryType e); auto; discriminate. Qed.

(** *** Logs stamped by a monotonic clock *)

Lemma forallb_filter {A : Type} (f keep : A -> bool) (l : list A) :
  forallb f l = true -> forallb f (filter keep l) = true.
Proof.
  rewrite !forallb_forall. intros H x Hx.
  apply filter_In in Hx. apply H, Hx.
Qed.

Lemma step_consistent (p q : t) :
  step p q -> consistent p = true -> consistent q = true.
Proof.
  unfold consistent. intros Hstep H.
  apply andb_true_iff in H. destruct H as [Hnow Hall].
  destruct Hstep as [p to Hfin Hle | p n started lasted | p n | p n a b | p n | p n];
    unfold exec; simpl.
  - rewrite Hfin. simpl. rewrite forallb_forall in *. intros e He.
    specialize (Hall e He). unfold stamped_by in *.
    destruct (entryType e); auto.
    apply andb_true_iff in Hall. destruct Hall as [F L].
    rewrite F. simpl. exact (NumberFacts.le_trans _ _ _ L Hle).
  - rewrite Hnow, forallb_app, Hall. reflexivity.
  - rewrite Hnow, forallb_app, Hall. simpl. unfold stamped_by. simpl.
    now rewrite Hnow, NumberFacts.le_refl.
  - unfold measure.
    destruct (latest_mark b (buffer p)) as [e |];
      [destruct (latest_mark a (buffer p)) as [s |] |]; simpl;
      rewrite Hnow, ?forallb_app, Hall; reflexivity.
  - rewrite Hnow. simpl. now apply forallb_filter.
  - rewrite Hnow. simpl. now apply forallb_filter.
Qed.

Lemma reachable_consistent (p : t) : reachable p -> consistent p = true.
Proof.
  induction 1 as [| p q _ IH Hstep]; [reflexivity |].
  exact (step_consistent p q Hstep IH).
Qed.

(** In such a log the latest mark of a name was stamped by now. *)
Lemma consistent_latest_mark (p : t) (n : string) (s : PerformanceEntry) :
  consistent p = true -> latest_mark n (buffer p) = Some s ->
  finite (now p) = true /\ finite (startTime s) = true /\
  le (startTime s) (now p) = true.
Proof.
  unfold consistent. intros H Hs.
  apply andb_true_iff in H. destruct H as [Hnow Hall].
  apply latest_mark_is_mark in Hs. destruct Hs as [Hin Hm].
  rewrite forallb_forall in Hall. specialize (Hall s Hin).
  unfold stamped_by in Hall. unfold is_mark_named in Hm.
  destruct (entryType s); try discriminate Hm.
  apply andb_true_iff in Hall. tauto.
Qed.

End PerformanceFacts.

(** ** The frame recorder *)

Module PerformanceUtilsFacts.
Import Performance PerformanceUtils PerformanceFacts Views.

(** *** Calls that leave the recorder's two variables alone *)

Lemma keeps_recorder_host {A : Type} (c : M Performance.t A) :
  keeps_recorder (host c).
Proof.
  intros w. unfold exec, host. destruct (c (performance w)); simpl; auto.
Qed.

Lemma keeps_recorder_ret {A : Type} (a : A) : keeps_recorder (ret a).
Proof. intros w; split; reflexivity. Qed.

Lemma keeps_recorder_throw {A : Type} (e : Exn) : keeps_recorder (@throw World A e).
Proof. intros w; split; reflexivity. Qed.

Lemma keeps_recorder_gets {A : Type} (f : World -> A) : keeps_recorder (gets f).
Proof. intros w; split; reflexivity. Qed.

Lemma keeps_recorder_bind {A B : Type} (c : M World A) (k : A -> M World B) :
  keeps_recorder c -> (forall a, keeps_recorder (k a)) -> keeps_recorder (bind c k).
Proof.
  intros Hc Hk w. specialize (Hc w). unfold exec, bind in *.
  destruct (c w) as [[a | e] w1]; simpl in *; auto.
  destruct (Hk a w1) as [H1 H2]. unfold exec in *.
  rewrite H1, H2. exact Hc.
Qed.

Lemma keeps_recorder_first_duration (es : list PerformanceEntry) :
  keeps_recorder (first_duration es).
Proof. destruct es; [apply keeps_recorder_throw | apply keeps_recorder_ret]. Qed.

Create HintDb recorder.
#[local] Hint Resolve keeps_recorder_host keeps_recorder_ret keeps_recorder_throw
  keeps_recorder_gets keeps_recorder_first_duration : recorder.

Lemma getPerformanceMetrics_keeps_recorder : keeps_recorder getPerformanceMetrics.
Proof.
  unfold getPerformanceMetrics.
  repeat (apply keeps_recorder_bind; [auto with recorder | intros ?]).
  auto with recorder.
Qed.

(** *** When [getPerformanceMetrics] returns, and what *)

Lemma host_measure_returns (w : World) (n a b : string) (s e : PerformanceEntry) :
  latest_mark a (buffer (performance w)) = Some s ->
  latest_mark b (buffer (performance w)) = Some e ->
  host (Performance.measure n a b) w =
    (Normal tt, with_log w (buffer (performance w) ++ [measure_entry n s e])).
Proof.
  intros Ha Hb. unfold host, Performance.measure. now rewrite Ha, Hb.
Qed.

Lemma latest_mark_past_measure (n m : string) (log : list PerformanceEntry)
    (s e : PerformanceEntry) :
  latest_mark n (log ++ [measure_entry m s e]) = latest_mark n log.
Proof. now rewrite latest_mark_snoc. Qed.

Lemma entries_named_cons (n : string) (log : list PerformanceEntry) (x : PerformanceEntry) :
  In x log -> is_named n x = true ->
  exists y r, entries_named n log = y :: r.
Proof.
  intros Hin Hn. destruct (entries_named n log) as [| y r] eqn:E; eauto.
  rewrite entries_named_nil in E. rewrite (E x Hin) in Hn. discriminate Hn.
Qed.

Lemma getPerformanceMetrics_returns (w : World) (c l f : PerformanceEntry) :
  latest_mark (marker_value create) (buffer (performance w)) = Some c ->
  latest_mark (marker_value load) (buffer (performance w)) = Some l ->
  latest_mark (marker_value fullLoad) (buffer (performance w)) = Some f ->
  exists loadTime fullLoadTime,
    getPerformanceMetrics w =
      (Normal (metrics_of loadTime fullLoadTime (frameTimes w)),
       with_log w ((buffer (performance w)
                      ++ [measure_entry loadTimeKey c l])
                      ++ [measure_entry fullLoadTimeKey c f])).
Proof.
  intros Hc Hl Hf.
  set (log1 := buffer (performance w) ++ [measure_entry loadTimeKey c l]).
  set (log2 := log1 ++ [measure_entry fullLoadTimeKey c f]).
  destruct (entries_named_cons loadTimeKey log2 (measure_entry loadTimeKey c l))
    as (e1 & r1 & E1).
  { unfold log2, log1. rewrite !in_app_iff. simpl. tauto. }
  { reflexivity. }
  destruct (entries_named_cons fullLoadTimeKey log2 (measure_entry fullLoadTimeKey c f))
    as (e2 & r2 & E2).
  { unfold log2. rewrite in_app_iff. simpl. tauto. }
  { reflexivity. }
  exists (duration e1), (duration e2).
  unfold getPerformanceMetrics.
  unfold bind at 1. rewrite (host_measure_returns w _ _ _ c l Hc Hl). fold log1.
  unfold bind at 1.
  rewrite (host_measure_returns (with_log w log1) _ _ _ c f).
  2, 3: simpl; unfold log1; now rewrite latest_mark_past_measure.
  simpl buffer. fold log2.
  unfold bind, host, getEntriesByName, gets. simpl.
  rewrite E1. unfold first_duration at 1, ret at 1. simpl.
  rewrite E2. reflexivity.
Qed.

Lemma getPerformanceMetrics_returned (w w' : World) (m : PerformanceMetrics) :
  getPerformanceMetrics w = (Normal m, w') ->
  exists c l f,
    latest_mark (marker_value create) (buffer (performance w)) = Some c /\
    latest_mark (marker_value load) (buffer (performance w)) = Some l /\
    latest_mark (marker_value fullLoad) (buffer (performance w)) = Some f.
Proof.
  intros H. unfold getPerformanceMetrics in H.
  unfold bind at 1, host at 1, Performance.measure at 1 in H.
  destruct (latest_mark (marker_value load) (buffer (performance w))) as [l |];
    [| discriminate H].
  destruct (latest_mark (marker_value create) (buffer (performance w))) as [c |] eqn:Hc;
    [| discriminate H].
  unfold bind at 1, host at 1, Performance.measure at 1 in H.
  simpl buffer in H. rewrite !latest_mark_snoc in H.
  cbn [is_mark_named entryType marker_value] in *. rewrite Hc in H.
  destruct (latest_mark "fullLoad" (buffer (performance w))) as [f |];
    [| discriminate H].
  exists c, l, f. auto.
Qed.

Lemma lifecycle_marked_latest (p : Performance.t) :
  Spec.lifecycle_marked p ->
  exists c l f,
    latest_mark (marker_value create) (buffer p) = Some c /\
    latest_mark (marker_value load) (buffer p) = Some l /\
    latest_mark (marker_value fullLoad) (buffer p) = Some f.
Proof. intros [[c Hc] [[l Hl] [f Hf]]]. exists c, l, f. auto. Qed.

Lemma getPerformanceMetrics_value (w w' : World) (m : PerformanceMetrics) :
  getPerformanceMetrics w = (Normal m, w') ->
  (exists loadTime fullLoadTime, m = metrics_of loadTime fullLoadTime (frameTimes w)) /\
  lastFrameTime w' = lastFrameTime w /\
  frameTimes w' = frameTimes w /\
  Spec.lifecycle_marked (performance w').
Proof.
  intros H.
  destruct (getPerformanceMetrics_returned w w' m H) as (c & l & f & Hc & Hl & Hf).
  destruct (getPerformanceMetrics_returns w c l f Hc Hl Hf) as (d1 & d2 & E).
  rewrite E in H. inversion H; subst. clear H.
  split; [eauto |]. split; [reflexivity |]. split; [reflexivity |].
  unfold Spec.lifecycle_marked, has_mark. simpl.
  rewrite !latest_mark_past_measure. repeat split; eauto.
Qed.

Lemma getPerformanceMetrics_marked (w : World) :
  Spec.lifecycle_marked (performance w) ->
  exists m w', getPerformanceMetrics w = (Normal m, w').
Proof.
  intros H. destruct (lifecycle_marked_latest _ H) as (c & l & f & Hc & Hl & Hf).
  destruct (getPerformanceMetrics_returns w c l f Hc Hl Hf) as (d1 & d2 & E).
  eauto.
Qed.

(** *** [frame] *)

Lemma exec_frame (t : number) (w : World) :
  exec (frame t) w =
    {| lastFrameTime := Some t;
       frameTimes := frameTimes w ++
         match lastFrameTime w with
         | Some last => [(t - last)%float]
         | None => []
         end;
       performance := performance w |}.
Proof.
  unfold exec, frame, modify; simpl.
  destruct (lastFrameTime w); [reflexivity | now rewrite app_nil_r].
Qed.

Lemma exec_frame_then {A : Type} (t : number) (k : M World A) (w : World) :
  exec (frame t ;; k) w = exec k (exec (frame t) w).
Proof. reflexivity. Qed.

Lemma exec_frames_cons (t : number) (rest : list number) (w : World) :
  exec (frames (t :: rest)) w = exec (frames rest) (exec (frame t) w).
Proof. reflexivity. Qed.

Lemma frames_keep_performance (timestamps : list number) (w : World) :
  performance (exec (frames timestamps) w) = performance w.
Proof.
  revert w. induction timestamps as [| t rest IH]; intros w; [reflexivity |].
  rewrite exec_frames_cons, IH, exec_frame. reflexivity.
Qed.

Lemma frames_count (timestamps : list number) (w : World) :
  List.length (frameTimes (exec (frames timestamps) w)) =
    List.length (frameTimes w) +
    match lastFrameTime w with
    | Some _ => List.length timestamps
    | None => List.length timestamps - 1
    end.
Proof.
  revert w. induction timestamps as [| t rest IH]; intros w.
  - unfold exec. simpl. destruct (lastFrameTime w); lia.
  - rewrite exec_frames_cons, IH, exec_frame. simpl.
    rewrite length_app. destruct (lastFrameTime w); simpl; lia.
Qed.

Lemma clearMetrics_resets (w : World) :
  lastFrameTime (exec clearMetrics w) = None /\
  frameTimes (exec clearMetrics w) = [].
Proof. split; reflexivity. Qed.

(** *** The dropped-frame weight *)

Lemma frameTimeTarget_value : frameTimeTarget = Spec.target.
Proof. reflexivity. Qed.

Lemma dropped_fold_accumulate (sample : list number) (acc : number) :
  fold_left
    (fun acc curr => acc + (curr - frameTimeTarget) / frameTimeTarget)%float
    (filter (fun frameTime => gt frameTime frameTimeTarget) sample) acc
  = Spec.accumulate_overage acc sample.
Proof.
  revert acc. induction sample as [| frameTime rest IH]; intros acc; [reflexivity |].
  simpl filter. change Spec.target with frameTimeTarget in *.
  simpl Spec.accumulate_overage. change Spec.target with frameTimeTarget.
  destruct (gt frameTime frameTimeTarget); simpl; apply IH.
Qed.

Lemma metrics_of_percentDroppedFrames (d1 d2 : number) (sample : list number) :
  percentDroppedFrames (metrics_of d1 d2 sample) = Spec.percentDroppedFrames sample.
Proof.
  unfold metrics_of, Spec.percentDroppedFrames, Spec.droppedWeight. simpl.
  now rewrite dropped_fold_accumulate.
Qed.

(** C1: whenever the lifecycle marks are in the log, [getPerformanceMetrics]
    returns; the dropped weight it computes is the sum, over exactly the
    frame times strictly above 1000/60 ms, of (frameTime - target) / target,
    and [percentDroppedFrames] is
    droppedWeight / (totalFrames + droppedWeight) * 100 with [totalFrames]
    the length of the sample. *)
Theorem percentDroppedFrames_is_weighted (w : World) :
  Spec.lifecycle_marked (performance w) ->
  exists m w',
    getPerformanceMetrics w = (Normal m, w') /\
    totalFrames m = List.length (frameTimes w) /\
    percentDroppedFrames m = Spec.percentDroppedFrames (frameTimes w).
Proof.
  intros Hm. destruct (getPerformanceMetrics_marked w Hm) as (m & w' & E).
  exists m, w'. split; [exact E |].
  destruct (getPerformanceMetrics_value w w' m E) as ((d1 & d2 & ->) & _).
  split; [reflexivity | apply metrics_of_percentDroppedFrames].
Qed.

(** The lifecycle marks of a given log, found by evaluation. *)
Ltac lifecycle_marks := repeat split; eexists; reflexivity.

Lemma percentDroppedFrames_is_weighted_witness :
  Spec.lifecycle_marked (performance (Samples.recorded Samples.at_16_67)) /\
  exists m w',
    getPerformanceMetrics (Samples.recorded Samples.at_16_67) = (Normal m, w') /\
    totalFrames m = 3 /\
    percentDroppedFrames m = Spec.percentDroppedFrames Samples.at_16_67.
Proof.
  split; [lifecycle_marks |].
  apply (percentDroppedFrames_is_weighted (Samples.recorded Samples.at_16_67)).
  lifecycle_marks.
Defined.

(** C2: from a recorder with no baseline and an empty sample (fresh, or as
    [clearMetrics] leaves it), [frame t0] then [frame t1] records the one
    delta [t1 - t0]; after [n] calls of [frame] the sample has [n - 1]
    elements ([0] for [n = 0]), which is the [totalFrames] that
    [getPerformanceMetrics] reports, and it does report once the lifecycle
    marks are in the log. *)
Theorem frames_record_deltas (w : World) (t0 t1 : number) (timestamps : list number) :
  lastFrameTime w = None ->
  frameTimes w = [] ->
  frameTimes (exec (frame t0 ;; frame t1) w) = [(t1 - t0)%float] /\
  List.length (frameTimes (exec (frames timestamps) w)) = List.length timestamps - 1 /\
  (forall m w',
     getPerformanceMetrics (exec (frames timestamps) w) = (Normal m, w') ->
     totalFrames m = List.length timestamps - 1) /\
  (Spec.lifecycle_marked (performance w) ->
   exists m w',
     getPerformanceMetrics (exec (frames timestamps) w) = (Normal m, w')).
Proof.
  intros Hlast Hnone.
  assert (Hlen : List.length (frameTimes (exec (frames timestamps) w))
                 = List.length timestamps - 1).
  { rewrite frames_count, Hlast, Hnone. reflexivity. }
  split; [| split; [exact Hlen | split]].
  - rewrite exec_frame_then, !exec_frame. simpl. now rewrite Hlast, Hnone.
  - intros m w' E.
    destruct (getPerformanceMetrics_value _ _ _ E) as ((d1 & d2 & ->) & _).
    exact Hlen.
  - intros Hm. apply getPerformanceMetrics_marked.
    now rewrite frames_keep_performance.
Qed.

Lemma frames_record_deltas_witness :
  lastFrameTime (fresh Samples.marked_log) = None /\
  frameTimes (fresh Samples.marked_log) = [] /\
  frameTimes (exec (frame 5 ;; frame 21.5) (fresh Samples.marked_log)) = [16.5%float] /\
  exists m w',
    getPerformanceMetrics
      (exec (frames [5; 21.5; 38; 54.5]%float) (fresh Samples.marked_log))
    = (Normal m, w') /\
    totalFrames m = 3.
Proof.
  split; [reflexivity | split; [reflexivity |]].
  destruct (frames_record_deltas (fresh Samples.marked_log) 5 21.5
              [5; 21.5; 38; 54.5]%float eq_refl eq_refl)
    as (Hd & _ & Hn & Hr).
  split; [exact Hd |].
  destruct Hr as (m & w' & E); [lifecycle_marks |].
  exists m, w'. split; [exact E | exact (Hn m w' E)].
Defined.

(** *** No frames recorded *)

Lemma metrics_of_empty (d1 d2 : number) :
  totalFrames (metrics_of d1 d2 []) = 0 /\
  is_nan (fps (metrics_of d1 d2 [])) = true /\
  is_nan (percentDroppedFrames (metrics_of d1 d2 [])) = true.
Proof. repeat split; reflexivity. Qed.

(** [clearMetrics] deletes the lifecycle marks, so the [measure] calls of
    [getPerformanceMetrics] have nothing to measure between. *)
Lemma latest_mark_filtered (n : string) (keep : PerformanceEntry -> bool)
    (log : list PerformanceEntry) :
  (forall e, is_mark_named n e = true -> keep e = false) ->
  latest_mark n (filter keep log) = None.
Proof.
  intros H. apply latest_mark_none. intros e Hin.
  apply filter_In in Hin. destruct Hin as [_ Hk].
  destruct (is_mark_named n e) eqn:E; auto.
  rewrite (H e E) in Hk. discriminate Hk.
Qed.

Lemma clearMetrics_unmarks (w : World) :
  latest_mark (marker_value fullLoad)
    (buffer (performance (exec clearMetrics w))) = None.
Proof.
  unfold exec, clearMetrics. simpl.
  apply latest_mark_filtered. intros e E. now rewrite E.
Qed.

(** The first [measure] call asks for the [load] mark as its end mark. *)
Lemma clearMetrics_unmarks_load (w : World) :
  latest_mark (marker_value load)
    (buffer (performance (exec clearMetrics w))) = None.
Proof.
  unfold exec, clearMetrics. simpl.
  apply latest_mark_none. intros e Hin.
  apply filter_In in Hin. destruct Hin as [Hin _].
  apply filter_In in Hin. destruct Hin as [_ Hk].
  destruct (is_mark_named "load" e) eqn:E; [discriminate Hk | reflexivity].
Qed.

Lemma getPerformanceMetrics_after_clearMetrics (w : World) :
  outcome (clearMetrics ;; getPerformanceMetrics) w = Throw SyntaxError.
Proof.
  unfold outcome. unfold bind at 1.
  change (clearMetrics w) with (Normal tt, exec clearMetrics w).
  cbv iota beta. unfold getPerformanceMetrics.
  unfold bind at 1, host at 1, Performance.measure at 1.
  now rewrite clearMetrics_unmarks_load.
Qed.

(** Recording the three markers again puts the lifecycle marks back. *)
Lemma marks_all_markers_marked (w : World) :
  Spec.lifecycle_marked (performance (exec (marks all_markers) w)).
Proof.
  unfold Spec.lifecycle_marked, has_mark, exec. simpl.
  rewrite !latest_mark_snoc. simpl. repeat split; eexists; reflexivity.
Qed.

Lemma cleared_then_marked_returns_nan (w0 : World) :
  exists m,
    outcome (clearMetrics ;; marks all_markers ;; getPerformanceMetrics) w0 = Normal m /\
    totalFrames m = 0 /\
    is_nan (fps m) = true /\
    is_nan (percentDroppedFrames m) = true.
Proof.
  set (w := exec (marks all_markers) (exec clearMetrics w0)).
  destruct (getPerformanceMetrics_marked w (marks_all_markers_marked _)) as (m & w' & E).
  exists m. split.
  - unfold outcome.
    change ((clearMetrics ;; marks all_markers ;; getPerformanceMetrics) w0)
      with (getPerformanceMetrics w).
    now rewrite E.
  - destruct (getPerformanceMetrics_value w w' m E) as ((d1 & d2 & ->) & _).
    apply metrics_of_empty.
Qed.

(** C3 (as the code has it): with the sample as [clearMetrics] leaves it
    (no [frame] call since) and the three lifecycle marks recorded again,
    [getPerformanceMetrics] returns [totalFrames = 0] and a not-a-number
    [fps] and [percentDroppedFrames]: the zero-frame divisions raise
    nothing. *)
Theorem cleared_and_marked_metrics_are_nan (w0 w : World) :
  frameTimes w = frameTimes (exec clearMetrics w0) ->
  Spec.lifecycle_marked (performance w) ->
  exists m w',
    getPerformanceMetrics w = (Normal m, w') /\
    totalFrames m = 0 /\
    is_nan (fps m) = true /\
    is_nan (percentDroppedFrames m) = true.
Proof.
  intros Hft Hm. destruct (getPerformanceMetrics_marked w Hm) as (m & w' & E).
  exists m, w'. split; [exact E |].
  destruct (getPerformanceMetrics_value w w' m E) as ((d1 & d2 & ->) & _).
  rewrite Hft. destruct (clearMetrics_resets w0) as [_ ->].
  apply metrics_of_empty.
Qed.

Lemma cleared_and_marked_metrics_are_nan_witness :
  let w0 := Samples.recorded Samples.at_16_67 in
  let w := exec (clearMetrics ;; marks all_markers) w0 in
  frameTimes w = frameTimes (exec clearMetrics w0) /\
  Spec.lifecycle_marked (performance w) /\
  exists m w',
    getPerformanceMetrics w = (Normal m, w') /\
    totalFrames m = 0 /\
    is_nan (fps m) = true /\
    is_nan (percentDroppedFrames m) = true.
Proof.
  assert (Hm : Spec.lifecycle_marked
                 (performance
                    (exec (clearMetrics ;; marks all_markers)
                       (Samples.recorded Samples.at_16_67))))
    by (repeat split; eexists; reflexivity).
  split; [reflexivity | split; [exact Hm |]].
  apply (cleared_and_marked_metrics_are_nan (Samples.recorded Samples.at_16_67)
           (exec (clearMetrics ;; marks all_markers)
              (Samples.recorded Samples.at_16_67)) eq_refl Hm).
Defined.

(** C3 (as stated) fails: called right after [clearMetrics],
    [getPerformanceMetrics] throws, the marks it measures between being
    gone. *)
Lemma cleared_metrics_counterexample :
  ~ Spec.cleared_metrics_are_nan_at (Samples.recorded Samples.at_16_67).
Proof.
  intros (m & w' & E & _).
  pose proof (getPerformanceMetrics_after_clearMetrics
                (Samples.recorded Samples.at_16_67)) as T.
  unfold outcome in T. rewrite E in T. discriminate T.
Qed.

(** *** Asking twice *)

Lemma polled_keeps (n : nat) (w w1 : World) (m1 : PerformanceMetrics) :
  getPerformanceMetrics w = (Normal m1, w1) ->
  lastFrameTime (Spec.polled n w) = lastFrameTime w /\
  frameTimes (Spec.polled n w) = frameTimes w /\
  Spec.lifecycle_marked (performance (Spec.polled n w)).
Proof.
  revert w w1 m1. induction n as [| k IH]; intros w w1 m1 E.
  - simpl.
    destruct (getPerformanceMetrics_returned w w1 m1 E) as (c & l & f & Hc & Hl & Hf).
    split; [reflexivity | split; [reflexivity |]].
    repeat split; eexists; eassumption.
  - simpl. replace (exec getPerformanceMetrics w) with w1
      by (unfold exec; now rewrite E).
    destruct (getPerformanceMetrics_value w w1 m1 E) as (_ & H1 & H2 & Hm).
    destruct (getPerformanceMetrics_marked w1 Hm) as (m2 & w2 & E2).
    destruct (IH w1 w2 m2 E2) as (K1 & K2 & K3).
    rewrite K1, K2, H1, H2. auto.
Qed.

(** C6: [getPerformanceMetrics] leaves [frameTimes] and the last-frame
    baseline as they were, whether it returns or throws; and once it has
    returned, every further call (with no [frame] or [mark] call between)
    returns the same [totalFrames], [fps] and [percentDroppedFrames]. *)
Theorem getPerformanceMetrics_idempotent (w : World) :
  (lastFrameTime (exec getPerformanceMetrics w) = lastFrameTime w /\
   frameTimes (exec getPerformanceMetrics w) = frameTimes w) /\
  forall (m1 : PerformanceMetrics) (w1 : World) (n : nat),
    getPerformanceMetrics w = (Normal m1, w1) ->
    exists m2 w2,
      getPerformanceMetrics (Spec.polled n w) = (Normal m2, w2) /\
      totalFrames m2 = totalFrames m1 /\
      fps m2 = fps m1 /\
      percentDroppedFrames m2 = percentDroppedFrames m1 /\
      lastFrameTime w2 = lastFrameTime w /\
      frameTimes w2 = frameTimes w.
Proof.
  split; [apply getPerformanceMetrics_keeps_recorder |].
  intros m1 w1 n E.
  destruct (getPerformanceMetrics_value w w1 m1 E) as ((d1 & d2 & ->) & _).
  destruct (polled_keeps n w w1 _ E) as (K1 & K2 & K3).
  destruct (getPerformanceMetrics_marked _ K3) as (m2 & w2 & E2).
  exists m2, w2. split; [exact E2 |].
  destruct (getPerformanceMetrics_value _ _ _ E2) as ((e1 & e2 & ->) & L1 & L2 & _).
  rewrite L1, L2, K1, K2. repeat split; reflexivity.
Qed.

Lemma getPerformanceMetrics_idempotent_witness :
  let w := Samples.recorded Samples.at_16_67 in
  exists m1 w1,
    getPerformanceMetrics w = (Normal m1, w1) /\
    exists m2 w2,
      getPerformanceMetrics (Spec.polled 2 w) = (Normal m2, w2) /\
      totalFrames m2 = totalFrames m1 /\
      fps m2 = fps m1 /\
      percentDroppedFrames m2 = percentDroppedFrames m1 /\
      lastFrameTime w2 = lastFrameTime w /\
      frameTimes w2 = frameTimes w.
Proof.
  intros w. eexists. eexists.
  assert (E : getPerformanceMetrics w = (Normal _, _)) by (vm_compute; reflexivity).
  split; [exact E |].
  exact (proj2 (getPerformanceMetrics_idempotent w) _ _ 2 E).
Defined.

(** *** Frames of 16.67 ms *)

Lemma metrics_of_at_16_67 (d1 d2 : number) :
  let m := metrics_of d1 d2 Samples.at_16_67 in
  totalFrames m = 3 /\
  forallb (fun frameTime => gt frameTime frameTimeTarget) Samples.at_16_67 = true /\
  lt Samples.pdf_low (percentDroppedFrames m)
    && lt (percentDroppedFrames m) Samples.pdf_high = true /\
  lt Samples.fps_low (fps m) && lt (fps m) Samples.fps_high = true.
Proof. repeat split; reflexivity. Qed.

(** C7 (as the code has it): a frame of 16.67 ms is above the budget of
    1000/60 ms, so each of the three frames adds to the dropped weight:
    [percentDroppedFrames] is about 0.02 (between 0.0199 and 0.02), not 0,
    and [fps] about 59.988 (between 59.98 and 59.99). *)
Theorem metrics_at_16_67 (w : World) :
  frameTimes w = Samples.at_16_67 ->
  Spec.lifecycle_marked (performance w) ->
  exists m w',
    getPerformanceMetrics w = (Normal m, w') /\
    totalFrames m = 3 /\
    forallb (fun frameTime => gt frameTime frameTimeTarget) (frameTimes w) = true /\
    lt Samples.pdf_low (percentDroppedFrames m)
      && lt (percentDroppedFrames m) Samples.pdf_high = true /\
    lt Samples.fps_low (fps m) && lt (fps m) Samples.fps_high = true.
Proof.
  intros Hft Hm. destruct (getPerformanceMetrics_marked w Hm) as (m & w' & E).
  exists m, w'. split; [exact E |].
  destruct (getPerformanceMetrics_value w w' m E) as ((d1 & d2 & ->) & _).
  rewrite Hft. apply metrics_of_at_16_67.
Qed.

Lemma metrics_at_16_67_witness :
  let w := Samples.recorded Samples.at_16_67 in
  frameTimes w = Samples.at_16_67 /\
  Spec.lifecycle_marked (performance w) /\
  exists m w',
    getPerformanceMetrics w = (Normal m, w') /\
    totalFrames m = 3 /\
    forallb (fun frameTime => gt frameTime frameTimeTarget) (frameTimes w) = true /\
    lt Samples.pdf_low (percentDroppedFrames m)
      && lt (percentDroppedFrames m) Samples.pdf_high = true /\
    lt Samples.fps_low (fps m) && lt (fps m) Samples.fps_high = true.
Proof.
  intros w.
  assert (Hm : Spec.lifecycle_marked (performance w)) by lifecycle_marks.
  split; [reflexivity | split; [exact Hm |]].
  exact (metrics_at_16_67 w eq_refl Hm).
Defined.

(** C7 (as stated) fails: for the sample [16.67, 16.67, 16.67] the
    reported [percentDroppedFrames] is not 0, whatever tolerance is allowed
    on [fps]. *)
Lemma metrics_at_16_67_counterexample :
  ~ exists tolerance,
      Spec.on_budget_at tolerance (Samples.recorded Samples.at_16_67).
Proof.
  intros (tolerance & m & w' & E & Hz & _).
  destruct (getPerformanceMetrics_value _ _ _ E) as ((d1 & d2 & ->) & _).
  vm_compute in Hz. discriminate Hz.
Qed.

(** Three frames exactly on the budget do meet it. *)
Lemma metrics_on_target (d1 d2 : number) :
  let m := metrics_of d1 d2 [frameTimeTarget; frameTimeTarget; frameTimeTarget] in
  percentDroppedFrames m = 0%float /\ fps m = 60%float.
Proof. split; reflexivity. Qed.

(** *** Deltas under timestamps that never go back *)

(** C8 (as the code has it): under finite timestamps that never go back,
    a run of [frame] calls only appends to the sample, and every element it
    appends is non-negative; it is zero when two calls carry the same
    timestamp. *)
Theorem frame_deltas_nonnegative (w : World) (timestamps : list number) :
  Spec.nondecreasing_from (lastFrameTime w) timestamps = true ->
  exists appended,
    frameTimes (exec (frames timestamps) w) = frameTimes w ++ appended /\
    Forall (fun d => le 0 d = true) appended.
Proof.
  revert w. induction timestamps as [| t rest IH]; intros w H.
  - exists []. split; [now rewrite app_nil_r | constructor].
  - simpl in H. apply andb_true_iff in H. destruct H as [H Hrest].
    apply andb_true_iff in H. destruct H as [Ht Hlast].
    rewrite exec_frames_cons.
    destruct (IH (exec (frame t) w)) as (more & E & Hall).
    { rewrite exec_frame. exact Hrest. }
    rewrite E, exec_frame. simpl frameTimes.
    destruct (lastFrameTime w) as [last |].
    + apply andb_true_iff in Hlast. destruct Hlast as [Hfin Hle].
      exists ((t - last)%float :: more). split; [now rewrite <- app_assoc |].
      constructor; [| exact Hall].
      now apply NumberFacts.sub_nonneg.
    + exists more. split; [now rewrite app_nil_r | exact Hall].
Qed.

Lemma frame_deltas_nonnegative_witness :
  let w := fresh Performance.initial in
  Spec.nondecreasing_from (lastFrameTime w) Samples.same_instant = true /\
  exists appended,
    frameTimes (exec (frames Samples.same_instant) w) = frameTimes w ++ appended /\
    Forall (fun d => le 0 d = true) appended.
Proof.
  intros w. split; [reflexivity |].
  exact (frame_deltas_nonnegative w Samples.same_instant eq_refl).
Defined.

(** C8 (as stated) fails: two calls of [frame] with the same timestamp
    record the delta 0, which is not positive. *)
Lemma frame_deltas_positive_counterexample :
  ~ Spec.deltas_positive_at (fresh Performance.initial) Samples.same_instant.
Proof.
  intros H. destruct (H eq_refl) as (appended & E & Hall).
  vm_compute in E. subst appended.
  inversion Hall as [| d rest Hd _]. vm_compute in Hd. discriminate Hd.
Qed.

End PerformanceUtilsFacts.

(** ** The per-request wrapper *)

Module RequestPerformanceFacts.
Import Performance RequestPerformance PerformanceFacts.
Import Views Spec.

Lemma first_query_ended (this : RequestPerformance.t) (p : Performance.t) :
  first_query this p = entries_named (measure_of this) (ended this p).
Proof. reflexivity. Qed.

Lemma constructor_returns (request : RequestParameters) (p : Performance.t) :
  constructor request p =
    (Normal (instance request),
     {| now := now p;
        buffer := buffer p ++ [mark_entry (start_of (instance request)) (now p)] |}).
Proof. reflexivity. Qed.

Lemma append_cancel_l (u a b : string) : (u ++ a)%string = (u ++ b)%string -> a = b.
Proof.
  induction u as [| c u IH]; simpl; intros H; [exact H |].
  inversion H. auto.
Qed.

Lemma instance_start_not_end (request : RequestParameters) :
  String.eqb (end_of (instance request)) (start_of (instance request)) = false.
Proof.
  apply String.eqb_neq. unfold end_of, start_of, instance. simpl.
  intros H. apply append_cancel_l in H. discriminate H.
Qed.

Lemma latest_start_ended (request : RequestParameters) (p : Performance.t) :
  latest_mark (start_of (instance request)) (ended (instance request) p) =
  latest_mark (start_of (instance request)) (buffer p).
Proof.
  unfold ended. rewrite latest_mark_snoc.
  unfold is_mark_named. simpl entryType. simpl name.
  now rewrite instance_start_not_end.
Qed.

(** *** The three ways [finish] can go *)

Ltac finish_first_query this p :=
  unfold finish, bind, Performance.mark, modify, getEntriesByName, gets;
  simpl;
  change (entries_named (measure (_marks this))
            (buffer p ++ [mark_entry (end_ (_marks this)) (now p)]))
    with (first_query this p).

Lemma finish_observed (this : RequestPerformance.t) (p : Performance.t) :
  first_query this p <> [] ->
  finish this p =
    (Normal (first_query this p), {| now := now p; buffer := ended this p |}).
Proof.
  intros H. finish_first_query this p.
  destruct (first_query this p) as [| e r]; [now destruct H | reflexivity].
Qed.

Lemma finish_synthesized (this : RequestPerformance.t) (p : Performance.t)
    (s : PerformanceEntry) :
  first_query this p = [] ->
  latest_mark (start_of this) (ended this p) = Some s ->
  finish this p =
    (Normal [measure_entry (measure_of this) s (mark_entry (end_of this) (now p))],
     {| now := now p;
        buffer :=
          cleaned this
            (ended this p ++
               [measure_entry (measure_of this) s
                  (mark_entry (end_of this) (now p))]) |}).
Proof.
  intros Hq Hs. finish_first_query this p. rewrite Hq. simpl.
  unfold Performance.measure. simpl buffer.
  rewrite latest_mark_snoc_mark.
  unfold ended, start_of, end_of in Hs. rewrite Hs.
  unfold ret. simpl buffer.
  change (buffer p ++ [mark_entry (end_ (_marks this)) (now p)])
    with (ended this p).
  rewrite entries_named_snoc_fresh.
  - reflexivity.
  - exact Hq.
  - unfold is_named. simpl. apply String.eqb_refl.
Qed.

Lemma finish_throws (this : RequestPerformance.t) (p : Performance.t) :
  first_query this p = [] ->
  latest_mark (start_of this) (ended this p) = None ->
  finish this p = (Throw SyntaxError, {| now := now p; buffer := ended this p |}).
Proof.
  intros Hq Hs. finish_first_query this p. rewrite Hq. simpl.
  unfold Performance.measure. simpl buffer.
  rewrite latest_mark_snoc_mark.
  unfold ended, start_of, end_of in Hs. now rewrite Hs.
Qed.

(** The wrapper only drives the facility through its operations, so it
    keeps the log within what a monotonic clock can have stamped. *)
Lemma constructor_reachable (request : RequestParameters) (p : Performance.t) :
  reachable p -> reachable (exec (constructor request) p).
Proof.
  intros H. apply (reachable_step p _ H).
  exact (step_mark p (start_of (instance request))).
Qed.

Lemma finish_reachable (this : RequestPerformance.t) (p : Performance.t) :
  reachable p -> reachable (exec (finish this) p).
Proof.
  intros H.
  assert (H1 : reachable {| now := now p; buffer := ended this p |})
    by exact (reachable_step p _ H (step_mark p (end_of this))).
  unfold exec. destruct (first_query this p) as [| e r] eqn:Hq.
  - destruct (latest_mark (start_of this) (ended this p)) as [s |] eqn:Hs.
    + rewrite (finish_synthesized this p s Hq Hs). simpl.
      set (p1 := {| now := now p; buffer := ended this p |}) in *.
      assert (H2 : reachable
                {| now := now p;
                   buffer := ended this p ++
                     [measure_entry (measure_of this) s
                        (mark_entry (end_of this) (now p))] |}).
      { apply (reachable_step p1 _ H1).
        replace {| now := now p;
                   buffer := ended this p ++
                     [measure_entry (measure_of this) s
                        (mark_entry (end_of this) (now p))] |}
          with (exec (Performance.measure (measure_of this) (start_of this)
                        (end_of this)) p1); [apply step_measure |].
        unfold exec, Performance.measure, p1. simpl buffer.
        unfold ended at 1. rewrite latest_mark_snoc_mark.
        fold (ended this p). now rewrite Hs. }
      apply (reachable_step _ _
               (reachable_step _ _
                  (reachable_step _ _ H2 (step_clearMarks _ (start_of this)))
                  (step_clearMarks _ (end_of this)))
               (step_clearMeasures _ (measure_of this))).
    + rewrite (finish_throws this p Hq Hs). exact H1.
  - rewrite finish_observed by (rewrite Hq; discriminate). exact H1.
Qed.

Lemma finish_result_nonempty (this : RequestPerformance.t) (p p' : Performance.t)
    (entries : list PerformanceEntry) :
  finish this p = (Normal entries, p') -> entries <> [].
Proof.
  intros E. destruct (first_query this p) as [| e r] eqn:Hq.
  - destruct (latest_mark (start_of this) (ended this p)) as [s |] eqn:Hs.
    + rewrite (finish_synthesized this p s Hq Hs) in E.
      inversion E; subst. discriminate.
    + rewrite (finish_throws this p Hq Hs) in E. discriminate E.
  - rewrite finish_observed in E by (rewrite Hq; discriminate).
    inversion E; subst. rewrite Hq. discriminate.
Qed.

(** X17: [finish] returns exactly when its first query finds entries or a
    mark under the start name of the wrapper is in the log, and whenever
    it returns, the sequence it returns is not empty. *)
Theorem finish_returns_iff_started (request : RequestParameters) (p : Performance.t) :
  let this := instance request in
  (finish_returns_at this p <->
   first_query this p <> [] \/ has_mark (start_of this) p) /\
  (forall entries p', finish this p = (Normal entries, p') -> entries <> []).
Proof.
  intros this. split; [| intros entries p'; apply finish_result_nonempty].
  split.
  - intros (entries & p' & E).
    destruct (first_query this p) as [| e r] eqn:Hq; [| left; discriminate].
    right. unfold has_mark.
    destruct (latest_mark (start_of this) (buffer p)) as [s |] eqn:Hs; [eauto |].
    rewrite (finish_throws this p Hq) in E; [discriminate E |].
    unfold this. now rewrite latest_start_ended.
  - intros H. unfold finish_returns_at.
    destruct (first_query this p) as [| e r] eqn:Hq.
    + destruct H as [H | [s Hs]]; [now destruct H |].
      rewrite (finish_synthesized this p s Hq); [eauto |].
      unfold this. now rewrite latest_start_ended.
    + rewrite finish_observed by (rewrite Hq; discriminate). eauto.
Qed.

Lemma finish_returns_iff_started_witness :
  has_mark (start_of (instance Samples.tile)) Samples.worker_at_finish /\
  finish_returns_at (instance Samples.tile) Samples.worker_at_finish.
Proof.
  assert (H : has_mark (start_of (instance Samples.tile)) Samples.worker_at_finish)
    by (eexists; reflexivity).
  split; [exact H |].
  exact (proj2 (proj1 (finish_returns_iff_started Samples.tile Samples.worker_at_finish))
           (or_intror H)).
Defined.

(** C4 (the code where it fails the claim): in a worker two wrappers for
    one URL are under way, constructed at 10 and 12 ms; the first finishes
    at 30.5 ms and its cleanup deletes the start marks of both.  The
    [finish] of the second, at 31 ms, finds its first query empty, and
    [performance.measure] throws: the call ends in a SyntaxError and leaves
    its end mark in the log, where the claim has every branch return a
    sequence. *)
Theorem sibling_finish_throws :
  Samples.after_sibling_finished =
    advance 31 (exec (finish (instance Samples.tile)) MoreSamples.siblings_under_way) /\
  first_query (instance Samples.tile) Samples.after_sibling_finished = [] /\
  finish (instance Samples.tile) Samples.after_sibling_finished =
    (Throw SyntaxError,
     {| now := 31%float;
        buffer := [mark_entry (end_of (instance Samples.tile)) 31] |}) /\
  ~ finish_returns_at (instance Samples.tile) Samples.after_sibling_finished.
Proof.
  split; [reflexivity |]. split; [reflexivity |]. split; [reflexivity |].
  intros (entries & p' & E). vm_compute in E. discriminate E.
Qed.

(** *** What the fallback leaves in the log *)

Lemma cleaned_old_entries (this : RequestPerformance.t) (log : list PerformanceEntry) :
  (forall x, In x log -> is_named (measure_of this) x = false) ->
  cleaned this log =
    filter (fun x => negb (is_mark_named (start_of this) x
                           || is_mark_named (end_of this) x)) log.
Proof.
  unfold cleaned. induction log as [| x r IH]; intros H; [reflexivity |].
  assert (Hx : is_measure_named (measure_of this) x = false).
  { destruct (is_measure_named (measure_of this) x) eqn:E; auto.
    apply is_measure_named_is_named in E.
    rewrite (H x (or_introl eq_refl)) in E. discriminate E. }
  assert (Hr : forall y, In y r -> is_named (measure_of this) y = false)
    by (intros y Hy; apply H; now right).
  simpl. destruct (is_mark_named (start_of this) x); simpl; [now apply IH |].
  destruct (is_mark_named (end_of this) x); simpl; [now apply IH |].
  rewrite Hx. simpl. f_equal. now apply IH.
Qed.

Lemma cleaned_after_fallback (request : RequestParameters) (p : Performance.t)
    (s : PerformanceEntry) :
  let this := instance request in
  first_query this p = [] ->
  cleaned this
    (ended this p ++
       [measure_entry (measure_of this) s (mark_entry (end_of this) (now p))]) =
  filter (fun x => negb (is_mark_named (start_of this) x
                         || is_mark_named (end_of this) x)) (buffer p).
Proof.
  intros this Hq.
  assert (Hold : forall x, In x (buffer p) -> is_named (measure_of this) x = false).
  { intros x Hx. rewrite first_query_ended in Hq.
    apply (proj1 (entries_named_nil _ _) Hq). unfold ended.
    apply in_or_app. now left. }
  rewrite <- (cleaned_old_entries this (buffer p) Hold).
  unfold cleaned, ended. rewrite !filter_app. simpl.
  rewrite is_measure_named_measure_entry, String.eqb_refl.
  rewrite is_mark_named_mark_entry. subst this.
  rewrite instance_start_not_end. simpl.
  rewrite is_mark_named_mark_entry, String.eqb_refl. simpl.
  now rewrite !app_nil_r.
Qed.

(** X18: in a log stamped by a monotonic clock, for a wrapper under whose
    start name a mark is in the log, the latest one being [s], and whose
    first query comes back empty, [finish] returns one entry, the measure
    under the URL from [s] to its end mark, with [duration >= 0];
    afterwards the log is the one before the call without the marks under
    <url>#start and <url>#end: no mark under these two names and no entry
    at all under <url> is left, and when the log before the call held no
    measure under <url>#start or <url>#end, no mark or measure under any
    of the three names is left. *)
Theorem finish_fallback_cleans_up (request : RequestParameters) (p : Performance.t)
    (s : PerformanceEntry) :
  let this := instance request in
  consistent p = true ->
  latest_mark (start_of this) (buffer p) = Some s ->
  first_query this p = [] ->
  exists e p',
    finish this p = (Normal [e], p') /\
    e = measure_entry (url request) s (mark_entry (end_of this) (now p)) /\
    le 0 (duration e) = true /\
    buffer p' =
      filter (fun x => negb (is_mark_named (start_of this) x
                             || is_mark_named (end_of this) x)) (buffer p) /\
    (forall x, In x (buffer p') ->
       is_mark_named (start_of this) x = false /\
       is_mark_named (end_of this) x = false /\
       is_named (measure_of this) x = false) /\
    ((forall x, In x (buffer p) ->
        is_measure_named (start_of this) x = false /\
        is_measure_named (end_of this) x = false) ->
     forall x, In x (buffer p') -> residual this x = false).
Proof.
  intros this Hp Hs Hq.
  destruct (consistent_latest_mark p _ s Hp Hs) as (Fn & Fs & Hle).
  assert (Hs' : latest_mark (start_of this) (ended this p) = Some s)
    by (unfold this; now rewrite latest_start_ended).
  assert (Hold : forall x, In x (buffer p) -> is_named (measure_of this) x = false).
  { intros x Hx. rewrite first_query_ended in Hq.
    apply (proj1 (entries_named_nil _ _) Hq). unfold ended.
    apply in_or_app. now left. }
  assert (Hleft : forall x,
            In x (filter (fun x => negb (is_mark_named (start_of this) x
                                         || is_mark_named (end_of this) x)) (buffer p)) ->
            In x (buffer p) /\
            is_mark_named (start_of this) x = false /\
            is_mark_named (end_of this) x = false /\
            is_named (measure_of this) x = false).
  { intros x Hx. apply filter_In in Hx. destruct Hx as [Hin Hk].
    apply negb_true_iff, orb_false_iff in Hk. destruct Hk as [K1 K2]. auto. }
  pose proof (cleaned_after_fallback request p s Hq) as Hc.
  cbv zeta in Hc. fold this in Hc.
  exists (measure_entry (measure_of this) s (mark_entry (end_of this) (now p))).
  exists {| now := now p;
            buffer := filter (fun x => negb (is_mark_named (start_of this) x
                                             || is_mark_named (end_of this) x))
                        (buffer p) |}.
  split; [rewrite (finish_synthesized this p s Hq Hs'), Hc; reflexivity |].
  split; [reflexivity |].
  split; [simpl; now apply NumberFacts.sub_nonneg |].
  simpl buffer.
  split; [reflexivity |].
  split; [intros x Hx; exact (proj2 (Hleft x Hx)) |].
  intros Hm x Hx. destruct (Hleft x Hx) as (Hin & K1 & K2 & K3).
  destruct (Hm x Hin) as [M1 M2].
  unfold residual, mark_or_measure_named. rewrite K1, K2, M1, M2. simpl.
  destruct (is_mark_named (measure_of this) x) eqn:E1;
    [apply is_mark_named_is_named in E1; congruence |].
  destruct (is_measure_named (measure_of this) x) eqn:E2;
    [apply is_measure_named_is_named in E2; congruence | reflexivity].
Qed.

Lemma finish_fallback_cleans_up_witness :
  let this := instance Samples.tile in
  let p := Samples.worker_at_finish in
  let s := mark_entry (start_of this) 10 in
  consistent p = true /\
  latest_mark (start_of this) (buffer p) = Some s /\
  first_query this p = [] /\
  exists e p',
    finish this p = (Normal [e], p') /\
    duration e = 32.5%float /\
    buffer p' = [].
Proof.
  intros this p s.
  split; [reflexivity | split; [reflexivity | split; [reflexivity |]]].
  destruct (finish_fallback_cleans_up Samples.tile Samples.worker_at_finish
              (mark_entry (start_of (instance Samples.tile)) 10)
              eq_refl eq_refl eq_refl)
    as (e & p' & E & He & _ & Hb & _).
  exists e, p'. split; [exact E |]. split.
  - rewrite He. reflexivity.
  - rewrite Hb. reflexivity.
Defined.

(** C5 (the code where it fails the claim): with two wrappers for one URL
    under way in a worker, constructed at 10 and 12 ms, both take the
    fallback.  The first to finish, at 30.5 ms, measures from the latest
    mark under the shared start name, which is the one of its sibling: it
    reports 18.5 ms where 20.5 ms went by since its own construction.  The
    second, at 31 ms, has an empty first query as well, synthesizes
    nothing and returns nothing: it throws, and its end mark stays in the
    log under one of its names. *)
Theorem sibling_fallback_fails :
  first_query (instance Samples.tile) MoreSamples.siblings_under_way = [] /\
  outcome (finish (instance Samples.tile)) MoreSamples.siblings_under_way =
    Normal [{| name := url Samples.tile; entryType := MeasureEntry;
               startTime := 12%float; duration := 18.5%float |}] /\
  (now MoreSamples.siblings_under_way - 10)%float = 20.5%float /\
  first_query (instance Samples.tile) Samples.after_sibling_finished = [] /\
  outcome (finish (instance Samples.tile)) Samples.after_sibling_finished =
    Throw SyntaxError /\
  existsb (residual (instance Samples.tile))
    (buffer (exec (finish (instance Samples.tile)) Samples.after_sibling_finished))
    = true /\
  ~ fallback_cleans_up_at (instance Samples.tile) Samples.after_sibling_finished.
Proof.
  repeat (split; [reflexivity |]).
  intros H. destruct (H eq_refl) as (e & p' & E & _).
  vm_compute in E. discriminate E.
Qed.

(** *** What the observed path leaves in the log *)

(** C10: when the first query of [finish] finds entries, [finish] returns
    them and only adds its end mark to the log: the start mark that the
    constructor recorded and the end mark just recorded both stay in the
    shared log; nothing is cleaned up on this path. *)
Theorem finish_observed_keeps_marks (request : RequestParameters)
    (p0 p : Performance.t) :
  let this := instance request in
  (forall x, In x (buffer (exec (constructor request) p0)) -> In x (buffer p)) ->
  first_query this p <> [] ->
  exists p',
    finish this p = (Normal (first_query this p), p') /\
    buffer p' = buffer p ++ [mark_entry (end_of this) (now p)] /\
    In (mark_entry (start_of this) (now p0)) (buffer p') /\
    In (mark_entry (end_of this) (now p)) (buffer p') /\
    residual this (mark_entry (start_of this) (now p0)) = true /\
    residual this (mark_entry (end_of this) (now p)) = true.
Proof.
  intros this Hkept Hq. eexists.
  split; [exact (finish_observed this p Hq) |].
  simpl buffer. unfold ended.
  split; [reflexivity |]. split; [| split; [| split]].
  - apply in_or_app. left. apply Hkept.
    unfold exec. rewrite constructor_returns. simpl.
    apply in_or_app. right. now left.
  - apply in_or_app. right. now left.
  - unfold residual, mark_or_measure_named.
    rewrite is_mark_named_mark_entry, String.eqb_refl. reflexivity.
  - unfold residual, mark_or_measure_named.
    rewrite (is_mark_named_mark_entry (end_of this)), String.eqb_refl.
    simpl. now rewrite orb_true_r.
Qed.

Lemma finish_observed_keeps_marks_witness :
  let this := instance Samples.tile in
  let p := Samples.main_thread_at_finish in
  first_query this p <> [] /\
  exists p',
    finish this p = (Normal (first_query this p), p') /\
    In (mark_entry (start_of this) 10) (buffer p') /\
    In (mark_entry (end_of this) 42.5) (buffer p').
Proof.
  intros this p.
  assert (Hq : first_query this p <> []) by (vm_compute; discriminate).
  split; [exact Hq |].
  destruct (finish_observed_keeps_marks Samples.tile Samples.before_request
              Samples.main_thread_at_finish)
    as (p' & E & _ & H1 & H2 & _).
  - intros x Hx. simpl in Hx. destruct Hx as [<- | []]. left. reflexivity.
  - exact Hq.
  - exists p'. split; [exact E | split; [exact H1 | exact H2]].
Defined.

End RequestPerformanceFacts.

(** ** Properties of [LngLatBounds.contains] *)

Module LngLatBoundsFacts.
Import LngLatBounds Spec Samples.

Lemma contains_defined (sw ne p : LngLat) :
  exists r, contains (of_corners sw ne) p = Normal r.
Proof. unfold contains; simpl; eexists; reflexivity. Qed.

Lemma contains_null_box_throws (p : LngLat) :
  contains {| _sw := None; _ne := None |} p = Throw TypeError.
Proof. reflexivity. Qed.

Lemma contains_unwrapped (sw ne p : LngLat) :
  gt (lng sw) (lng ne) = false ->
  contains (of_corners sw ne) p =
    Normal (latitude_within sw ne p
            && (le (lng sw) (lng p) && le (lng p) (lng ne))).
Proof. intros Hw; unfold contains, latitude_within; simpl; now rewrite Hw. Qed.

(** C9 (as the code has it): for a box whose southwest longitude exceeds
    its northeast longitude and a point whose latitude lies within
    [south, north], [contains] answers true exactly when the longitude of
    the point lies between the two edges taken in reverse order, that is
    east edge <= longitude <= west edge. *)
Theorem contains_wrapped_between_edges (sw ne p : LngLat) :
  gt (lng sw) (lng ne) = true ->
  latitude_within sw ne p = true ->
  contains (of_corners sw ne) p =
    Normal (ge (lng sw) (lng p) && ge (lng p) (lng ne)).
Proof.
  intros Hw Hlat. unfold contains; simpl.
  unfold latitude_within in Hlat. now rewrite Hw, Hlat.
Qed.

Lemma contains_wrapped_between_edges_witness :
  gt (lng sw_170) (lng ne_m170) = true /\
  latitude_within sw_170 ne_m170 p_175 = true /\
  contains (of_corners sw_170 ne_m170) p_175 =
    Normal (ge (lng sw_170) (lng p_175) && ge (lng p_175) (lng ne_m170)).
Proof.
  split; [reflexivity | split; [reflexivity |]].
  apply (contains_wrapped_between_edges sw_170 ne_m170 p_175); reflexivity.
Defined.

(** C9 (as stated) fails: the box from 170 east to -170 crosses the
    antimeridian and longitude 175 lies in it, yet [contains] answers
    false. *)
Lemma contains_antimeridian_counterexample :
  ~ contains_is_antimeridian_interval_at sw_170 ne_m170 p_175.
Proof.
  unfold contains_is_antimeridian_interval_at. intros H.
  specialize (H eq_refl eq_refl). vm_compute in H. discriminate H.
Qed.

End LngLatBoundsFacts.

(** ** Binary64 numbers: the order, [Math.min] and [Math.max] *)

Module OrderFacts.
Import NumberFacts.

Lemma SFcompare_antisym (x y : spec_float) :
  SFcompare y x = option_map CompOpp (SFcompare x y).
Proof.
  destruct x as [sx | sx | | sx mx ex], y as [sy | sy | | sy my ey]; simpl;
    try reflexivity;
    try (destruct sx; reflexivity); try (destruct sy; reflexivity);
    try (destruct sx, sy; reflexivity).
  pose proof (Z.compare_antisym ex ey) as Az.
  pose proof (Pos.compare_cont_antisym mx my Eq) as Ap. simpl in Ap.
  destruct sx, sy; try reflexivity; rewrite Az, <- Ap;
    destruct (Z.compare ex ey); simpl; try reflexivity;
    destruct (Pos.compare_cont Eq mx my); reflexivity.
Qed.

Lemma is_nan_SF (a : float) : is_nan a = false <-> Prim2SF a <> S754_nan.
Proof.
  unfold is_nan. rewrite FloatAxioms.eqb_spec. unfold SFeqb.
  destruct (Prim2SF a) as [s | s | | s m e] eqn:E; simpl.
  - split; [discriminate | reflexivity].
  - destruct s; split; (discriminate || reflexivity).
  - split; [discriminate | intros H; now destruct H].
  - assert (R : SFleb (S754_finite s m e) (S754_finite s m e) = true)
      by (apply SFleb_refl; reflexivity).
    unfold SFleb in R. simpl in R.
    assert (A := SFcompare_antisym (S754_finite s m e) (S754_finite s m e)).
    simpl in A.
    destruct s; destruct (Z.compare e e); simpl in *;
      try discriminate; try (split; [discriminate | reflexivity]);
      destruct (Pos.compare_cont Eq m m); simpl in *;
      try discriminate; split; (discriminate || reflexivity).
Qed.

Lemma is_nan_eq (a : float) : is_nan a = true -> a = nan.
Proof.
  intros H. apply Prim2SF_inj.
  change (Prim2SF nan) with S754_nan.
  destruct (Prim2SF a) as [s | s | | s m e] eqn:E; auto;
    exfalso; assert (K : is_nan a = false) by (apply is_nan_SF; rewrite E; discriminate);
    rewrite K in H; discriminate H.
Qed.

Lemma SFcompare_defined (x y : spec_float) :
  x <> S754_nan -> y <> S754_nan -> exists c, SFcompare x y = Some c.
Proof.
  destruct x as [sx | sx | | sx mx ex], y as [sy | sy | | sy my ey]; simpl;
    intros Hx Hy; try (now destruct Hx); try (now destruct Hy); eauto.
Qed.

(** The comparisons on numbers that are not NaN form a total preorder. *)
Lemma lt_le (a b : float) : lt a b = true -> le a b = true.
Proof.
  unfold lt, le. rewrite FloatAxioms.ltb_spec, FloatAxioms.leb_spec.
  unfold SFltb, SFleb. destruct (SFcompare (Prim2SF a) (Prim2SF b)) as [[] |];
    (discriminate || reflexivity).
Qed.

Lemma not_lt_le (a b : float) :
  is_nan a = false -> is_nan b = false -> lt a b = false -> le b a = true.
Proof.
  unfold lt, le. rewrite FloatAxioms.ltb_spec, FloatAxioms.leb_spec, !is_nan_SF.
  intros Ha Hb. unfold SFltb, SFleb.
  rewrite (SFcompare_antisym (Prim2SF a) (Prim2SF b)).
  destruct (SFcompare_defined _ _ Ha Hb) as [c ->]. destruct c; simpl;
    (discriminate || reflexivity).
Qed.

Lemma le_not_lt (a b : float) : le a b = true -> lt b a = false.
Proof.
  unfold lt, le. rewrite FloatAxioms.ltb_spec, FloatAxioms.leb_spec.
  unfold SFltb, SFleb. rewrite (SFcompare_antisym (Prim2SF a) (Prim2SF b)).
  destruct (SFcompare (Prim2SF a) (Prim2SF b)) as [[] |]; simpl;
    (discriminate || reflexivity).
Qed.

Lemma le_same (a : float) : is_nan a = false -> le a a = true.
Proof.
  intros H. apply not_lt_le; auto.
  unfold lt. rewrite FloatAxioms.ltb_spec. unfold SFltb.
  pose proof (SFcompare_antisym (Prim2SF a) (Prim2SF a)) as A.
  destruct (SFcompare (Prim2SF a) (Prim2SF a)) as [[] |]; simpl in A;
    (discriminate || reflexivity).
Qed.

Lemma le_number (a b : float) :
  le a b = true -> is_nan a = false /\ is_nan b = false.
Proof.
  unfold le. rewrite FloatAxioms.leb_spec, !is_nan_SF. unfold SFleb.
  destruct (Prim2SF a), (Prim2SF b); simpl; intros H;
    try discriminate H; split; discriminate.
Qed.

Lemma le_antisym (a b : float) :
  le a b = true -> le b a = true -> PrimFloat.eqb a b = true.
Proof.
  unfold le. rewrite !FloatAxioms.leb_spec, FloatAxioms.eqb_spec.
  unfold SFleb, SFeqb. rewrite (SFcompare_antisym (Prim2SF a) (Prim2SF b)).
  destruct (SFcompare (Prim2SF a) (Prim2SF b)) as [[] |]; simpl;
    (discriminate || reflexivity).
Qed.

(** *** [Math.min] and [Math.max] *)

Lemma min_choice (a b : float) : JSMath.min a b = a \/ JSMath.min a b = b.
Proof.
  unfold JSMath.min.
  destruct (is_nan a) eqn:Ha; [left; symmetry; now apply is_nan_eq |].
  destruct (is_nan b) eqn:Hb; [right; symmetry; now apply is_nan_eq |].
  simpl. destruct (lt a b), (lt b a), (get_sign a); auto.
Qed.

Lemma max_choice (a b : float) : JSMath.max a b = a \/ JSMath.max a b = b.
Proof.
  unfold JSMath.max.
  destruct (is_nan a) eqn:Ha; [left; symmetry; now apply is_nan_eq |].
  destruct (is_nan b) eqn:Hb; [right; symmetry; now apply is_nan_eq |].
  simpl. destruct (lt a b), (lt b a), (get_sign a); auto.
Qed.

Lemma min_same (a : float) : JSMath.min a a = a.
Proof. destruct (min_choice a a); assumption. Qed.

Lemma max_same (a : float) : JSMath.max a a = a.
Proof. destruct (max_choice a a); assumption. Qed.

Lemma min_idempotent (a b : float) :
  JSMath.min a (JSMath.min a b) = JSMath.min a b.
Proof.
  destruct (min_choice a b) as [H | H]; rewrite H; [apply min_same | exact H].
Qed.

Lemma max_idempotent (a b : float) :
  JSMath.max a (JSMath.max a b) = JSMath.max a b.
Proof.
  destruct (max_choice a b) as [H | H]; rewrite H; [apply max_same | exact H].
Qed.

Lemma min_number (a b : float) :
  is_nan a = false -> is_nan b = false -> is_nan (JSMath.min a b) = false.
Proof. intros Ha Hb. destruct (min_choice a b) as [-> | ->]; assumption. Qed.

Lemma max_number (a b : float) :
  is_nan a = false -> is_nan b = false -> is_nan (JSMath.max a b) = false.
Proof. intros Ha Hb. destruct (max_choice a b) as [-> | ->]; assumption. Qed.

Lemma min_le (a b : float) :
  is_nan a = false -> is_nan b = false ->
  le (JSMath.min a b) a = true /\ le (JSMath.min a b) b = true.
Proof.
  intros Ha Hb. unfold JSMath.min. rewrite Ha, Hb. simpl.
  destruct (lt a b) eqn:L1; [split; [now apply le_same | now apply lt_le] |].
  destruct (lt b a) eqn:L2; [split; [now apply lt_le | now apply le_same] |].
  destruct (get_sign a); split;
    auto using le_same, not_lt_le.
Qed.

Lemma max_ge (a b : float) :
  is_nan a = false -> is_nan b = false ->
  le a (JSMath.max a b) = true /\ le b (JSMath.max a b) = true.
Proof.
  intros Ha Hb. unfold JSMath.max. rewrite Ha, Hb. simpl.
  destruct (lt a b) eqn:L1; [split; [now apply lt_le | now apply le_same] |].
  destruct (lt b a) eqn:L2; [split; [now apply le_same | now apply lt_le] |].
  destruct (get_sign a); split;
    auto using le_same, not_lt_le.
Qed.

End OrderFacts.

(** ** geo/lng_lat_bounds.ts: properties of [extend], [contains] and the getters *)

Module ExtendFacts.
Import LngLatBounds LngLatBoundsOps OrderFacts NumberFacts MoreSamples.

Lemma number_valued_spec (p : LngLat) :
  number_valued p = true <-> is_nan (lng p) = false /\ is_nan (lat p) = false.
Proof.
  unfold number_valued. rewrite andb_true_iff, !negb_true_iff. tauto.
Qed.

Lemma contains_between (sw ne q : LngLat) :
  le (lat sw) (lat q) = true -> le (lat q) (lat ne) = true ->
  le (lng sw) (lng q) = true -> le (lng q) (lng ne) = true ->
  contains (of_corners sw ne) q = Normal true.
Proof.
  intros H1 H2 H3 H4. unfold contains. simpl. rewrite H1, H2, H3, H4.
  assert (G : gt (lng sw) (lng ne) = false)
    by (apply le_not_lt; exact (le_trans _ _ _ H3 H4)).
  now rewrite G.
Qed.

Lemma contains_unwrapped_inv (sw ne q : LngLat) :
  gt (lng sw) (lng ne) = false ->
  contains (of_corners sw ne) q = Normal true ->
  le (lat sw) (lat q) = true /\ le (lat q) (lat ne) = true /\
  le (lng sw) (lng q) = true /\ le (lng q) (lng ne) = true.
Proof.
  intros G. unfold contains. simpl. rewrite G. intros H. inversion H as [K].
  rewrite K. apply andb_true_iff in K. destruct K as [K1 K2].
  apply andb_true_iff in K1. apply andb_true_iff in K2. tauto.
Qed.

(** A box grown by corners in order contains whatever lies between them. *)
Lemma grown_contains (sw ne sw2 ne2 q : LngLat) :
  number_valued sw = true -> number_valued ne = true ->
  le (lat sw2) (lat q) = true -> le (lat q) (lat ne2) = true ->
  le (lng sw2) (lng q) = true -> le (lng q) (lng ne2) = true ->
  contains (grown sw ne sw2 ne2) q = Normal true.
Proof.
  rewrite !number_valued_spec. intros [S1 S2] [N1 N2] H1 H2 H3 H4.
  destruct (le_number _ _ H1) as [A1 _]. destruct (le_number _ _ H2) as [_ A2].
  destruct (le_number _ _ H3) as [A3 _]. destruct (le_number _ _ H4) as [_ A4].
  unfold grown. apply contains_between; simpl.
  - exact (le_trans _ _ _ (proj1 (min_le _ _ A1 S2)) H1).
  - exact (le_trans _ _ _ H2 (proj1 (max_ge _ _ A2 N2))).
  - exact (le_trans _ _ _ (proj1 (min_le _ _ A3 S1)) H3).
  - exact (le_trans _ _ _ H4 (proj1 (max_ge _ _ A4 N1))).
Qed.

(** Each corner of a box, and each point made of an edge of either, is
    inside the box when the south edge is not above the north edge. *)
Lemma contains_corner (sw ne c : LngLat) :
  number_valued sw = true -> number_valued ne = true ->
  lng c = lng sw \/ lng c = lng ne ->
  lat c = lat sw \/ lat c = lat ne ->
  contains (of_corners sw ne) c = Normal (le (lat sw) (lat ne)).
Proof.
  rewrite !number_valued_spec. intros [S1 S2] [N1 N2] Hlng Hlat.
  unfold contains. simpl. f_equal.
  assert (Lat : le (lat sw) (lat c) && le (lat c) (lat ne) = le (lat sw) (lat ne)).
  { destruct Hlat as [-> | ->]; rewrite le_same by assumption;
      [reflexivity | apply andb_true_r]. }
  rewrite Lat.
  pose proof (le_same _ S1) as R1. pose proof (le_same _ N1) as R2.
  unfold gt, ge. fold (lt (lng ne) (lng sw)).
  fold (le (lng c) (lng sw)). fold (le (lng ne) (lng c)).
  destruct (lt (lng ne) (lng sw)) eqn:G.
  - pose proof (lt_le _ _ G) as L.
    destruct Hlng as [-> | ->]; rewrite ?R1, ?R2, ?L; apply andb_true_r.
  - pose proof (not_lt_le _ _ N1 S1 G) as L.
    destruct Hlng as [-> | ->]; rewrite ?R1, ?R2, ?L; apply andb_true_r.
Qed.

Lemma accepting_stores_arguments : stores_arguments accepting.
Proof. intros a b c H. inversion H. split; reflexivity. Qed.

Section AnyConstructor.

Variable new_LngLat : number -> number -> Completion LngLat.

Lemma extend_corners (sw ne sw2 ne2 : LngLat) (obj : Extent) :
  obj = APoint sw2 /\ ne2 = sw2 \/ obj = ABounds (of_corners sw2 ne2) ->
  extend new_LngLat obj (of_corners sw ne) = (Normal tt, grown sw ne sw2 ne2).
Proof. intros [[-> ->] | ->]; reflexivity. Qed.

Lemma extend_missing_corner (b o : t) :
  _sw o = None \/ _ne o = None ->
  extend new_LngLat (ABounds o) b = (Normal tt, b).
Proof.
  intros H. unfold extend. destruct (_sw o), (_ne o); try reflexivity.
  destruct H; discriminate.
Qed.

(** X1: on a box with both corners, [extend] with a point makes the box
    contain that point (all coordinates being numbers). *)
Theorem extend_point_then_contains (sw ne p : LngLat) :
  number_valued sw = true -> number_valued ne = true ->
  number_valued p = true ->
  exists b',
    extend new_LngLat (APoint p) (of_corners sw ne) = (Normal tt, b') /\
    contains b' p = Normal true.
Proof.
  intros Hs Hn Hp. exists (grown sw ne p p). split; [reflexivity |].
  apply number_valued_spec in Hp. destruct Hp as [P1 P2].
  apply grown_contains; auto using le_same.
Qed.

(** X2: [extend] never drops a point from a box whose west edge is not
    beyond its east edge: what [contains] accepted before, it accepts
    after, whatever the box is extended with. *)
Theorem extend_keeps_contained (sw ne q : LngLat) (obj : Extent) :
  gt (lng sw) (lng ne) = false ->
  extent_number_valued obj = true ->
  contains (of_corners sw ne) q = Normal true ->
  exists b',
    extend new_LngLat obj (of_corners sw ne) = (Normal tt, b') /\
    contains b' q = Normal true.
Proof.
  intros G Hobj Hq.
  destruct (contains_unwrapped_inv sw ne q G Hq) as (H1 & H2 & H3 & H4).
  destruct (le_number _ _ H1) as [S2 _]. destruct (le_number _ _ H2) as [_ N2].
  destruct (le_number _ _ H3) as [S1 _]. destruct (le_number _ _ H4) as [_ N1].
  assert (K : forall sw2 ne2,
             number_valued sw2 = true -> number_valued ne2 = true ->
             contains (grown sw ne sw2 ne2) q = Normal true).
  { intros sw2 ne2 A B. apply number_valued_spec in A, B.
    destruct A as [A1 A2], B as [B1 B2].
    unfold grown. apply contains_between; simpl.
    - exact (le_trans _ _ _ (proj2 (min_le _ _ A2 S2)) H1).
    - exact (le_trans _ _ _ H2 (proj2 (max_ge _ _ B2 N2))).
    - exact (le_trans _ _ _ (proj2 (min_le _ _ A1 S1)) H3).
    - exact (le_trans _ _ _ H4 (proj2 (max_ge _ _ B1 N1))). }
  destruct obj as [p | o].
  - exists (grown sw ne p p). split; [reflexivity | now apply K].
  - simpl in Hobj. destruct o as [[sw2 |] [ne2 |]];
      try (exists (of_corners sw ne); split; [reflexivity | exact Hq]).
    apply andb_true_iff in Hobj. destruct Hobj as [A B].
    exists (grown sw ne sw2 ne2). split; [reflexivity | now apply K].
Qed.

(** X3: on a box with both corners, all of its coordinates being numbers,
    [extend] with a bounding box that has both corners and whose west edge
    is not beyond its east edge returns, and afterwards the box contains
    every point that the argument contains. *)
Theorem extend_bounds_covers (sw ne sw2 ne2 q : LngLat) :
  number_valued sw = true -> number_valued ne = true ->
  gt (lng sw2) (lng ne2) = false ->
  contains (of_corners sw2 ne2) q = Normal true ->
  exists b',
    extend new_LngLat (ABounds (of_corners sw2 ne2)) (of_corners sw ne)
      = (Normal tt, b') /\
    contains b' q = Normal true.
Proof.
  intros Hs Hn G Hq.
  destruct (contains_unwrapped_inv sw2 ne2 q G Hq) as (H1 & H2 & H3 & H4).
  exists (grown sw ne sw2 ne2). split; [reflexivity |].
  now apply grown_contains.
Qed.

(** X4: on a box with both corners, extending twice with the same argument
    is extending once. *)
Theorem extend_idempotent (sw ne : LngLat) (obj : Extent) :
  exec (extend new_LngLat obj ;; extend new_LngLat obj) (of_corners sw ne) =
  exec (extend new_LngLat obj) (of_corners sw ne).
Proof.
  assert (K : forall sw2 ne2,
             grown {| lng := JSMath.min (lng sw2) (lng sw);
                      lat := JSMath.min (lat sw2) (lat sw) |}
                   {| lng := JSMath.max (lng ne2) (lng ne);
                      lat := JSMath.max (lat ne2) (lat ne) |} sw2 ne2
             = grown sw ne sw2 ne2).
  { intros sw2 ne2. unfold grown. simpl.
    now rewrite !min_idempotent, !max_idempotent. }
  destruct obj as [p | [[sw2 |] [ne2 |]]]; try reflexivity.
  - exact (K p p).
  - exact (K sw2 ne2).
Qed.

(** X6: extending the null box with a point, when the constructor accepts
    the point, gives a box that is not empty and is that one place: it
    contains the point, and every point it contains compares equal to it
    in both coordinates. *)
Theorem extend_null_box_with_point (p c : LngLat) :
  stores_arguments new_LngLat ->
  number_valued p = true ->
  new_LngLat (lng p) (lat p) = Normal c ->
  exists b',
    extend new_LngLat (APoint p) null = (Normal tt, b') /\
    isEmpty b' = false /\
    contains b' p = Normal true /\
    forall q, contains b' q = Normal true -> same_place q p = true.
Proof.
  intros Hnew Hp Hc. destruct (Hnew _ _ _ Hc) as [C1 C2].
  apply number_valued_spec in Hp. destruct Hp as [P1 P2].
  exists (of_corners c c). split; [| split; [reflexivity | split]].
  - unfold extend, null. simpl. now rewrite Hc.
  - apply contains_between; rewrite ?C1, ?C2; now apply le_same.
  - intros q Hq.
    assert (G : gt (lng c) (lng c) = false)
      by (apply le_not_lt; rewrite C1; now apply le_same).
    destruct (contains_unwrapped_inv c c q G Hq) as (H1 & H2 & H3 & H4).
    rewrite C1, C2 in *. unfold same_place.
    now rewrite (le_antisym _ _ H4 H3), (le_antisym _ _ H2 H1).
Qed.

(** X7: on a box with both corners, all coordinates being numbers, the
    two stored corners and the two corners that [getNorthWest] and
    [getSouthEast] build from the edges are inside the box exactly when
    the south edge is not above the north edge; this holds for a box whose
    west edge is beyond its east edge as well. *)
Theorem corners_contained (sw ne : LngLat) :
  stores_arguments new_LngLat ->
  number_valued sw = true -> number_valued ne = true ->
  let b := of_corners sw ne in
  let inside := Normal (le (lat sw) (lat ne)) in
  outcome getSouthWest b = Normal (Some sw) /\
  outcome getNorthEast b = Normal (Some ne) /\
  contains b sw = inside /\
  contains b ne = inside /\
  outcome (getNorthWest new_LngLat) b = new_LngLat (lng sw) (lat ne) /\
  outcome (getSouthEast new_LngLat) b = new_LngLat (lng ne) (lat sw) /\
  (forall c, outcome (getNorthWest new_LngLat) b = Normal c -> contains b c = inside) /\
  (forall c, outcome (getSouthEast new_LngLat) b = Normal c -> contains b c = inside).
Proof.
  intros Hnew Hs Hn b inside.
  assert (NW : outcome (getNorthWest new_LngLat) b = new_LngLat (lng sw) (lat ne))
    by reflexivity.
  assert (SE : outcome (getSouthEast new_LngLat) b = new_LngLat (lng ne) (lat sw))
    by reflexivity.
  repeat split; try reflexivity.
  - apply contains_corner; auto.
  - apply contains_corner; auto.
  - intros c Hc. rewrite NW in Hc. destruct (Hnew _ _ _ Hc) as [C1 C2].
    apply contains_corner; auto.
  - intros c Hc. rewrite SE in Hc. destruct (Hnew _ _ _ Hc) as [C1 C2].
    apply contains_corner; auto.
Qed.

End AnyConstructor.

Lemma extend_point_then_contains_witness :
  number_valued sw_nyc = true /\ number_valued ne_nyc = true /\
  number_valued p_bronx = true /\
  exists b',
    extend accepting (APoint p_bronx) (of_corners sw_nyc ne_nyc) = (Normal tt, b') /\
    contains b' p_bronx = Normal true.
Proof.
  repeat (split; [reflexivity |]).
  apply (extend_point_then_contains accepting sw_nyc ne_nyc p_bronx); reflexivity.
Defined.

Lemma extend_keeps_contained_witness :
  let obj := ABounds (of_corners sw_bronx ne_bronx) in
  gt (lng sw_nyc) (lng ne_nyc) = false /\
  extent_number_valued obj = true /\
  contains (of_corners sw_nyc ne_nyc) p_park = Normal true /\
  exists b',
    extend accepting obj (of_corners sw_nyc ne_nyc) = (Normal tt, b') /\
    contains b' p_park = Normal true.
Proof.
  intros obj. repeat (split; [reflexivity |]).
  apply (extend_keeps_contained accepting sw_nyc ne_nyc p_park obj); reflexivity.
Defined.

Lemma extend_bounds_covers_witness :
  number_valued sw_nyc = true /\ number_valued ne_nyc = true /\
  gt (lng sw_bronx) (lng ne_bronx) = false /\
  contains (of_corners sw_bronx ne_bronx) p_bronx = Normal true /\
  exists b',
    extend accepting (ABounds (of_corners sw_bronx ne_bronx)) (of_corners sw_nyc ne_nyc)
      = (Normal tt, b') /\
    contains b' p_bronx = Normal true.
Proof.
  repeat (split; [reflexivity |]).
  apply (extend_bounds_covers accepting sw_nyc ne_nyc sw_bronx ne_bronx p_bronx);
    reflexivity.
Defined.

Lemma extend_null_box_with_point_witness :
  number_valued p_park = true /\
  accepting (lng p_park) (lat p_park) = Normal p_park /\
  exists b',
    extend accepting (APoint p_park) null = (Normal tt, b') /\
    isEmpty b' = false /\
    contains b' p_park = Normal true /\
    forall q, contains b' q = Normal true -> same_place q p_park = true.
Proof.
  repeat (split; [reflexivity |]).
  apply (extend_null_box_with_point accepting p_park p_park
           accepting_stores_arguments); reflexivity.
Defined.

Lemma corners_contained_witness :
  let b := of_corners Samples.sw_170 Samples.ne_m170 in
  number_valued Samples.sw_170 = true /\ number_valued Samples.ne_m170 = true /\
  contains b Samples.sw_170 = Normal true /\
  contains b Samples.ne_m170 = Normal true /\
  (forall c, outcome (getNorthWest accepting) b = Normal c ->
             contains b c = Normal true) /\
  (forall c, outcome (getSouthEast accepting) b = Normal c ->
             contains b c = Normal true).
Proof.
  intros b. repeat (split; [reflexivity |]).
  destruct (corners_contained accepting Samples.sw_170 Samples.ne_m170
              accepting_stores_arguments eq_refl eq_refl)
    as (_ & _ & H1 & H2 & _ & _ & H3 & H4).
  repeat split; assumption.
Defined.

(** X5: evaluated statement by statement, with the short circuit of
    [&&], [contains] leaves the box as it is and ends as the closed form
    above says: on a box that lacks a corner every path through the
    comparisons reaches a read of a field of the undefined corner, so the
    call throws a TypeError exactly when [isEmpty] is true, and returns a
    boolean exactly when it is false. *)
Theorem contains_by_reads_agrees (b : t) (p : LngLat) :
  contains_by_reads p b = (contains b p, b) /\
  (isEmpty b = true -> outcome (contains_by_reads p) b = Throw TypeError) /\
  ((exists r, outcome (contains_by_reads p) b = Normal r) <-> isEmpty b = false).
Proof.
  assert (E : contains_by_reads p b = (contains b p, b)).
  { destruct b as [[sw |] [ne |]];
      cbv beta iota zeta delta
        [contains_by_reads and_then read_sw read_ne field bind gets ret throw
         contains _sw _ne].
    - destruct (le (lat sw) (lat p)), (le (lat p) (lat ne)),
        (le (lng sw) (lng p)), (le (lng p) (lng ne)), (gt (lng sw) (lng ne)),
        (ge (lng sw) (lng p)), (ge (lng p) (lng ne)); reflexivity.
    - destruct (le (lat sw) (lat p)); [reflexivity |].
      destruct (le (lng sw) (lng p)); reflexivity.
    - reflexivity.
    - reflexivity. }
  split; [exact E |]. unfold outcome. rewrite E. simpl.
  unfold contains, isEmpty. destruct (_sw b), (_ne b); simpl; split;
    try (intros _; reflexivity); try discriminate;
    split; try (intros _; reflexivity); try discriminate;
    try (intros [r H]; discriminate H); eauto.
Qed.

End ExtendFacts.

(** ** Array lengths as numbers *)

Module CountFacts.
Import NumberFacts.
Local Open Scope Z_scope.

Lemma digits2_pos_iter_xO (p k : positive) :
  Zpos (digits2_pos (Pos.iter xO p k)) = Zpos (digits2_pos p) + Zpos k.
Proof.
  induction k as [| k IH] using Pos.peano_ind.
  - simpl. lia.
  - rewrite Pos.iter_succ. simpl digits2_pos. lia.
Qed.

(** Rounding leaves a mantissa that is already in canonical form alone. *)
Lemma binary_round_aux_canonical (s : bool) (m : positive) (e : Z) :
  bounded prec emax m e = true ->
  binary_round_aux prec emax s (Zpos m) e loc_Exact = S754_finite s m e.
Proof.
  unfold bounded, canonical_mantissa. intros H.
  apply andb_true_iff in H. destruct H as [Hc He]. apply Z.eqb_eq in Hc.
  unfold binary_round_aux, shr_fexp. simpl Zdigits2. zarith_names.
  rewrite Hc, Z.sub_diag.
  cbn [shr shr_m shr_r shr_s round_nearest_even loc_of_shr_record
       shr_record_of_loc Zdigits2].
  rewrite Hc, Z.sub_diag.
  cbn [shr shr_m shr_record_of_loc]. now rewrite He.
Qed.

Lemma of_nat_positive (n : nat) :
  (0 < n)%nat -> Z.of_nat n < 2 ^ 53 ->
  exists m e, Prim2SF (of_nat n) = S754_finite false m e.
Proof.
  intros Hpos Hlt. unfold of_nat. rewrite FloatAxioms.of_uint63_spec.
  rewrite Uint63.of_Z_spec. rewrite Z.mod_small
    by (split; [lia | apply Z.lt_trans with (2 ^ 53); [exact Hlt | reflexivity]]).
  destruct (Z.of_nat n) as [| p | p] eqn:E; try lia.
  unfold binary_normalize, binary_round.
  pose proof (digits2_pos_bounds p) as [Hlo _].
  assert (Hd : Zpos (digits2_pos p) <= 53).
  { destruct (Z_le_gt_dec (Zpos (digits2_pos p)) 53) as [L | G]; auto.
    assert (2 ^ 53 <= 2 ^ (Zpos (digits2_pos p) - 1)) by (apply Z.pow_le_mono_r; lia).
    lia. }
  assert (Hf : fexp prec emax (Zpos (digits2_pos p) + 0) = Zpos (digits2_pos p) - 53).
  { unfold fexp, SpecFloat.emin, prec, emax. zarith_names. lia. }
  zarith_names. rewrite Hf.
  unfold shl_align. zarith_names.
  destruct (Zpos (digits2_pos p) - 53 - 0) as [| k | k] eqn:K; try lia.
  - exists p, 0. apply binary_round_aux_canonical.
    unfold bounded, canonical_mantissa. rewrite Hf.
    apply andb_true_iff. split; [apply Z.eqb_eq; lia | reflexivity].
  - exists (Pos.iter xO p k), (Zpos (digits2_pos p) - 53).
    apply binary_round_aux_canonical.
    unfold bounded, canonical_mantissa, fexp, SpecFloat.emin, prec, emax.
    zarith_names. rewrite digits2_pos_iter_xO.
    apply andb_true_iff. split; [apply Z.eqb_eq; lia | apply Z.leb_le; lia].
Qed.

(** Nothing dropped out of a positive number of frames is 0 percent. *)
Lemma zero_of_count_percent (n : nat) :
  (0 < n)%nat -> Z.of_nat n < 2 ^ 53 ->
  (0 / (of_nat n + 0) * 100)%float = 0%float.
Proof.
  intros Hpos Hlt. destruct (of_nat_positive n Hpos Hlt) as (m & e & E).
  apply Prim2SF_inj.
  rewrite FloatAxioms.mul_spec, FloatAxioms.div_spec, FloatAxioms.add_spec, E.
  reflexivity.
Qed.

End CountFacts.

(** ** util/performance.ts: what the recorder leaves behind *)

Module RecorderFacts.
Import Performance PerformanceUtils PerformanceFacts PerformanceUtilsFacts Views.
Import RecorderSpec MoreSamples.

Lemma last_cons_default {A : Type} (l : list A) (x d d' : A) :
  last (x :: l) d = last (x :: l) d'.
Proof.
  revert x. induction l as [| y r IH]; intros x; [reflexivity |].
  exact (IH y).
Qed.

(** X8: a run of [frame] calls appends to the sample exactly the
    differences between consecutive timestamps, counted from the stored
    baseline when there is one and from the first timestamp otherwise, and
    leaves the last timestamp as the new baseline. *)
Theorem frames_record_differences (timestamps : list number) (w : World) :
  frameTimes (exec (frames timestamps) w) =
    frameTimes w ++ deltas_from (lastFrameTime w) timestamps /\
  lastFrameTime (exec (frames timestamps) w) =
    last (map Some timestamps) (lastFrameTime w).
Proof.
  revert w. induction timestamps as [| t rest IH]; intros w.
  - unfold exec. simpl. destruct (lastFrameTime w); now rewrite app_nil_r.
  - rewrite exec_frames_cons.
    destruct (IH (exec (frame t) w)) as [E1 E2]. rewrite E1, E2, exec_frame.
    simpl lastFrameTime. simpl frameTimes. split.
    + destruct (lastFrameTime w); simpl; now rewrite <- ?app_assoc, ?app_nil_r.
    + destruct rest as [| n rest]; [reflexivity |].
      apply (last_cons_default (map Some rest) (Some n)).
Qed.

Lemma filter_filter {A : Type} (f g : A -> bool) (l : list A) :
  filter f (filter g l) = filter (fun x => g x && f x) l.
Proof.
  induction l as [| x r IH]; [reflexivity |]. simpl.
  destruct (g x); simpl; [destruct (f x) |]; now rewrite IH.
Qed.

Lemma clearMetrics_log (w : World) :
  exec clearMetrics w =
    {| lastFrameTime := None;
       frameTimes := [];
       performance :=
         {| now := now (performance w);
            buffer := filter (fun e => negb (cleared e)) (buffer (performance w)) |} |}.
Proof.
  unfold exec, clearMetrics. simpl. rewrite !filter_filter.
  do 2 f_equal. apply filter_ext. intros e. unfold cleared. simpl.
  destruct (is_measure_named loadTimeKey e), (is_measure_named fullLoadTimeKey e),
    (is_mark_named "create" e), (is_mark_named "load" e),
    (is_mark_named "fullLoad" e); reflexivity.
Qed.

(** X9: [clearMetrics] resets the two variables and deletes from the log
    the loadTime and fullLoadTime measures and the marks of the three
    lifecycle markers, keeping every other entry in its place; clearing
    twice is clearing once. *)
Theorem clearMetrics_removes_exactly (w : World) :
  exec clearMetrics w =
    {| lastFrameTime := None;
       frameTimes := [];
       performance :=
         {| now := now (performance w);
            buffer := filter (fun e => negb (cleared e)) (buffer (performance w)) |} |} /\
  exec (clearMetrics ;; clearMetrics) w = exec clearMetrics w.
Proof.
  split; [apply clearMetrics_log |].
  change (exec (clearMetrics ;; clearMetrics) w)
    with (exec clearMetrics (exec clearMetrics w)).
  rewrite (clearMetrics_log (exec clearMetrics w)), (clearMetrics_log w). simpl.
  rewrite filter_filter. do 2 f_equal. apply filter_ext. intros e.
  now rewrite andb_diag.
Qed.

Lemma entries_named_snoc_other (n : string) (log : list PerformanceEntry)
    (x : PerformanceEntry) :
  is_named n x = false -> entries_named n (log ++ [x]) = entries_named n log.
Proof.
  intros H. unfold entries_named. rewrite filter_app. simpl. rewrite H.
  now rewrite app_nil_r.
Qed.

Lemma getPerformanceMetrics_reads (w : World) (c l f e1 e2 : PerformanceEntry)
    (r1 r2 : list PerformanceEntry) :
  latest_mark (marker_value create) (buffer (performance w)) = Some c ->
  latest_mark (marker_value load) (buffer (performance w)) = Some l ->
  latest_mark (marker_value fullLoad) (buffer (performance w)) = Some f ->
  entries_named loadTimeKey (measured (buffer (performance w)) c l f) = e1 :: r1 ->
  entries_named fullLoadTimeKey (measured (buffer (performance w)) c l f) = e2 :: r2 ->
  getPerformanceMetrics w =
    (Normal (metrics_of (duration e1) (duration e2) (frameTimes w)),
     with_log w (measured (buffer (performance w)) c l f)).
Proof.
  intros Hc Hl Hf E1 E2.
  destruct (getPerformanceMetrics_returns w c l f Hc Hl Hf) as (d1 & d2 & E).
  rewrite E. f_equal. f_equal.
  (* the two durations are read off the same two queries *)
  revert E. unfold getPerformanceMetrics.
  unfold bind at 1. rewrite (host_measure_returns w _ _ _ c l Hc Hl).
  unfold bind at 1.
  rewrite (host_measure_returns (with_log w _) _ _ _ c f).
  2, 3: simpl; now rewrite latest_mark_past_measure.
  simpl buffer. fold (measured (buffer (performance w)) c l f).
  unfold bind, host, getEntriesByName, gets. simpl.
  rewrite E1. unfold first_duration at 1, ret at 1. simpl.
  rewrite E2. unfold first_duration, ret. simpl.
  intros E. inversion E as [[K1 K2]]. unfold metrics_of. now rewrite K1, K2.
Qed.

(** X10: with the three lifecycle marks in a log that holds no entry named
    loadTime or fullLoadTime, [getPerformanceMetrics] returns, loadTime is
    the difference between the latest load and create marks and
    fullLoadTime the one between the latest fullLoad and create marks; in
    a log stamped by a monotonic clock each is non-negative when its mark
    is not before the create mark. *)
Theorem load_times_between_marks (w : World) (c l f : PerformanceEntry) :
  latest_mark (marker_value create) (buffer (performance w)) = Some c ->
  latest_mark (marker_value load) (buffer (performance w)) = Some l ->
  latest_mark (marker_value fullLoad) (buffer (performance w)) = Some f ->
  entries_named loadTimeKey (buffer (performance w)) = [] ->
  entries_named fullLoadTimeKey (buffer (performance w)) = [] ->
  exists m w',
    getPerformanceMetrics w = (Normal m, w') /\
    loadTime m = (startTime l - startTime c)%float /\
    fullLoadTime m = (startTime f - startTime c)%float /\
    (consistent (performance w) = true ->
     (le (startTime c) (startTime l) = true -> le 0 (loadTime m) = true) /\
     (le (startTime c) (startTime f) = true -> le 0 (fullLoadTime m) = true)).
Proof.
  intros Hc Hl Hf N1 N2.
  pose proof (getPerformanceMetrics_reads w c l f
                (measure_entry loadTimeKey c l) (measure_entry fullLoadTimeKey c f)
                [] [] Hc Hl Hf) as E.
  eexists. eexists. split; [apply E |].
  - unfold measured. rewrite entries_named_snoc_other by reflexivity.
    now apply entries_named_snoc_fresh.
  - unfold measured. apply entries_named_snoc_fresh; [| reflexivity].
    now rewrite entries_named_snoc_other by reflexivity.
  - simpl. split; [reflexivity | split; [reflexivity |]].
    intros Hp.
    destruct (consistent_latest_mark _ _ _ Hp Hc) as (_ & Fc & _).
    destruct (consistent_latest_mark _ _ _ Hp Hl) as (_ & Fl & _).
    destruct (consistent_latest_mark _ _ _ Hp Hf) as (_ & Ff & _).
    split; intros Hle; now apply NumberFacts.sub_nonneg.
Qed.

Lemma load_times_between_marks_witness :
  let w := fresh Samples.marked_log in
  consistent (performance w) = true /\
  exists m w',
    getPerformanceMetrics w = (Normal m, w') /\
    loadTime m = 120.5%float /\
    fullLoadTime m = 340.25%float /\
    le 0 (loadTime m) = true /\ le 0 (fullLoadTime m) = true.
Proof.
  intros w. split; [reflexivity |].
  destruct (load_times_between_marks w _ _ _ eq_refl eq_refl eq_refl eq_refl eq_refl)
    as (m & w' & E & H1 & H2 & H3).
  exists m, w'. split; [exact E |].
  split; [rewrite H1; reflexivity |]. split; [rewrite H2; reflexivity |].
  destruct (H3 eq_refl) as [K1 K2]. split; [apply K1 | apply K2]; reflexivity.
Defined.

Lemma getPerformanceMetrics_appends (w w' : World) (m : PerformanceMetrics) :
  getPerformanceMetrics w = (Normal m, w') ->
  exists c l f,
    buffer (performance w') = measured (buffer (performance w)) c l f.
Proof.
  intros E.
  destruct (getPerformanceMetrics_returned w w' m E) as (c & l & f & Hc & Hl & Hf).
  destruct (getPerformanceMetrics_returns w c l f Hc Hl Hf) as (d1 & d2 & E').
  rewrite E' in E. inversion E; subst. exists c, l, f. reflexivity.
Qed.

(** X11: every call of [getPerformanceMetrics] that returns leaves two
    more measures in the log: after [n] calls the log is the old one
    followed by [2 * n] entries, all of them entries that [clearMetrics]
    deletes. *)
Theorem getPerformanceMetrics_grows_log (w w1 : World) (m1 : PerformanceMetrics)
    (n : nat) :
  getPerformanceMetrics w = (Normal m1, w1) ->
  exists added,
    buffer (performance (Spec.polled n w)) = buffer (performance w) ++ added /\
    List.length added = 2 * n /\
    Forall (fun e => cleared e = true) added.
Proof.
  revert w w1 m1. induction n as [| k IH]; intros w w1 m1 E.
  - exists []. simpl. now rewrite app_nil_r.
  - simpl Spec.polled. replace (exec getPerformanceMetrics w) with w1
      by (unfold exec; now rewrite E).
    destruct (getPerformanceMetrics_appends w w1 m1 E) as (c & l & f & Hb).
    destruct (getPerformanceMetrics_value w w1 m1 E) as (_ & _ & _ & Hm).
    destruct (getPerformanceMetrics_marked w1 Hm) as (m2 & w2 & E2).
    destruct (IH w1 w2 m2 E2) as (added & Ha & Hlen & Hall).
    exists ([measure_entry loadTimeKey c l; measure_entry fullLoadTimeKey c f] ++ added).
    rewrite Ha, Hb. unfold measured. split; [now rewrite <- !app_assoc |].
    split; [simpl; lia |].
    repeat constructor. exact Hall.
Qed.

Lemma getPerformanceMetrics_grows_log_witness :
  let w := Samples.recorded smooth in
  exists m1 w1,
    getPerformanceMetrics w = (Normal m1, w1) /\
    exists added,
      buffer (performance (Spec.polled 3 w)) = buffer (performance w) ++ added /\
      List.length added = 6 /\
      Forall (fun e => cleared e = true) added.
Proof.
  intros w. eexists. eexists.
  assert (E : getPerformanceMetrics w = (Normal _, _)) by (vm_compute; reflexivity).
  split; [exact E |].
  exact (getPerformanceMetrics_grows_log w _ _ 3 E).
Defined.

(** X12: [getPerformanceMetrics] returns exactly when the three
    lifecycle marks are in the log; with one of them missing it throws the
    SyntaxError of [performance.measure]. *)
Theorem getPerformanceMetrics_throws_iff_unmarked (w : World) :
  ((exists m w', getPerformanceMetrics w = (Normal m, w')) <->
   Spec.lifecycle_marked (performance w)) /\
  (~ Spec.lifecycle_marked (performance w) ->
   outcome getPerformanceMetrics w = Throw SyntaxError).
Proof.
  split.
  - split.
    + intros (m & w' & E).
      destruct (getPerformanceMetrics_returned w w' m E) as (c & l & f & Hc & Hl & Hf).
      repeat split; eexists; eassumption.
    + apply getPerformanceMetrics_marked.
  - intros Hn. unfold outcome, getPerformanceMetrics.
    unfold bind at 1, host at 1, Performance.measure at 1.
    destruct (latest_mark (marker_value load) (buffer (performance w))) as [l |] eqn:Hl;
      [| reflexivity].
    destruct (latest_mark (marker_value create) (buffer (performance w))) as [c |] eqn:Hc;
      [| reflexivity].
    unfold bind at 1, host at 1, Performance.measure at 1.
    simpl buffer. rewrite !latest_mark_snoc.
    cbn [is_mark_named entryType marker_value measure_entry] in *. rewrite Hc.
    destruct (latest_mark "fullLoad" (buffer (performance w))) as [f |] eqn:Hf;
      [| reflexivity].
    destruct Hn. repeat split; eexists; eassumption.
Qed.

(** Whether it returns or throws, [getPerformanceMetrics] only adds to the
    log. *)
Lemma getPerformanceMetrics_only_appends (w : World) :
  exists added,
    buffer (performance (exec getPerformanceMetrics w)) =
      buffer (performance w) ++ added.
Proof.
  destruct (latest_mark (marker_value load) (buffer (performance w))) as [l |] eqn:Hl.
  - destruct (latest_mark (marker_value create) (buffer (performance w))) as [c |] eqn:Hc.
    + destruct (latest_mark (marker_value fullLoad) (buffer (performance w)))
        as [f |] eqn:Hf.
      * destruct (getPerformanceMetrics_returns w c l f Hc Hl Hf) as (d1 & d2 & E).
        unfold exec. rewrite E. simpl. rewrite <- app_assoc. eauto.
      * exists [measure_entry loadTimeKey c l].
        unfold exec, getPerformanceMetrics.
        unfold bind at 1. rewrite (host_measure_returns w _ _ _ c l Hc Hl).
        unfold bind at 1, host at 1, Performance.measure at 1.
        simpl buffer. rewrite !latest_mark_past_measure.
        cbn [marker_value] in *. rewrite Hf. reflexivity.
    + exists []. rewrite app_nil_r.
      unfold exec, getPerformanceMetrics.
      unfold bind at 1, host at 1, Performance.measure at 1.
      rewrite Hl, Hc. reflexivity.
  - exists []. rewrite app_nil_r.
    unfold exec, getPerformanceMetrics.
    unfold bind at 1, host at 1, Performance.measure at 1.
    rewrite Hl. reflexivity.
Qed.

End RecorderFacts.

(** ** util/performance.ts: a wrapper among other users of the log *)

Module WrapperFacts.
Import Performance RequestPerformance PerformanceFacts RequestPerformanceFacts.
Import Views Spec Lifecycle.
Import RecorderFacts RecorderSpec MoreSamples.

(** *** Names *)

Lemma append_empty_r (u : string) : (u ++ "")%string = u.
Proof. induction u as [| c u IH]; simpl; [reflexivity | now rewrite IH]. Qed.

Lemma append_not_self (u s : string) : s <> EmptyString -> (u ++ s)%string <> u.
Proof.
  intros Hs H. rewrite <- (append_empty_r u) in H at 2.
  apply append_cancel_l in H. contradiction.
Qed.

Lemma length_append (a b : string) :
  String.length (a ++ b) = String.length a + String.length b.
Proof. induction a as [| c a IH]; simpl; [reflexivity | now rewrite IH]. Qed.

Lemma append_cancel_r (a b s : string) :
  (a ++ s)%string = (b ++ s)%string -> a = b.
Proof.
  revert b. induction a as [| c a IH]; intros [| d b] H; simpl in H.
  - reflexivity.
  - apply (f_equal String.length) in H. simpl in H. rewrite length_append in H. lia.
  - apply (f_equal String.length) in H. simpl in H. rewrite length_append in H. lia.
  - inversion H. f_equal. now apply IH.
Qed.

Lemma end_not_start (a b : string) : (a ++ "#end")%string <> (b ++ "#start")%string.
Proof.
  revert b. induction a as [| c a IH]; intros b H.
  - simpl in H. destruct b as [| d b]; simpl in H; [discriminate H |].
    apply (f_equal String.length) in H. simpl in H. rewrite length_append in H.
    simpl in H. lia.
  - destruct b as [| d b]; simpl in H.
    + inversion H as [[Hc Ht]]. clear H.
      destruct a as [| e a]; simpl in Ht; [discriminate Ht |].
      inversion Ht as [[He Hu]]. clear Ht.
      destruct a as [| f a]; simpl in Hu; [discriminate Hu |].
      apply (f_equal String.length) in Hu. simpl in Hu.
      rewrite length_append in Hu. simpl in Hu. lia.
    + inversion H. now apply (IH b).
Qed.

Lemma start_name (r : RequestParameters) :
  start_of (instance r) = (url r ++ "#start")%string.
Proof. reflexivity. Qed.

Lemma end_name (r : RequestParameters) :
  end_of (instance r) = (url r ++ "#end")%string.
Proof. reflexivity. Qed.

Lemma marker_not_start (m : PerformanceUtils.PerformanceMarkers) (u : string) :
  PerformanceUtils.marker_value m <> (u ++ "#start")%string.
Proof.
  intros H.
  destruct u as [| a [| b [| c u]]]; destruct m; simpl in H;
    try discriminate H;
    apply (f_equal String.length) in H; simpl in H;
    rewrite length_append in H; simpl in H; lia.
Qed.

(** *** Marks that outlive what goes on around them *)

Lemma find_app {A : Type} (f : A -> bool) (l1 l2 : list A) :
  find f (l1 ++ l2) =
    match find f l1 with Some x => Some x | None => find f l2 end.
Proof.
  induction l1 as [| x r IH]; [reflexivity |]. simpl.
  destruct (f x); [reflexivity | exact IH].
Qed.

Lemma has_mark_app (n : string) (log added : list PerformanceEntry) :
  (exists e, latest_mark n log = Some e) ->
  exists e, latest_mark n (log ++ added) = Some e.
Proof.
  intros [e He]. unfold latest_mark in *. rewrite rev_app_distr, find_app.
  destruct (find (is_mark_named n) (rev added)); eauto.
Qed.

Lemma latest_mark_filter (n : string) (keep : PerformanceEntry -> bool)
    (log : list PerformanceEntry) :
  (forall e, is_mark_named n e = true -> keep e = true) ->
  latest_mark n (filter keep log) = latest_mark n log.
Proof.
  intros H. unfold latest_mark. rewrite <- filter_rev.
  induction (rev log) as [| x r IH]; [reflexivity |]. simpl.
  destruct (is_mark_named n x) eqn:E.
  - rewrite (H x E). simpl. now rewrite E.
  - destruct (keep x); simpl; [now rewrite E |]; exact IH.
Qed.

Lemma is_mark_named_name (n : string) (e : PerformanceEntry) :
  is_mark_named n e = true -> name e = n /\ entryType e = MarkEntry.
Proof.
  unfold is_mark_named. destruct (entryType e); try discriminate.
  intros H. apply String.eqb_eq in H. auto.
Qed.

Lemma is_mark_named_other (n n' : string) (e : PerformanceEntry) :
  n <> n' -> is_mark_named n e = true -> is_mark_named n' e = false.
Proof.
  intros Hn H. apply is_mark_named_name in H. destruct H as [<- Ht].
  unfold is_mark_named. rewrite Ht. now apply String.eqb_neq.
Qed.

Lemma is_mark_not_measure (n n' : string) (e : PerformanceEntry) :
  is_mark_named n e = true -> is_measure_named n' e = false.
Proof.
  intros H. apply is_mark_named_name in H. destruct H as [_ Ht].
  unfold is_measure_named. now rewrite Ht.
Qed.

(** A wrapper whose start mark is in the log can finish. *)
Lemma finish_returns_started (r : RequestParameters) (p : Performance.t) :
  has_mark (start_of (instance r)) p -> finish_returns_at (instance r) p.
Proof.
  intros [s Hs]. unfold finish_returns_at.
  destruct (first_query (instance r) p) as [| e rest] eqn:Hq.
  - rewrite (finish_synthesized (instance r) p s Hq); [eauto |].
    now rewrite latest_start_ended.
  - rewrite finish_observed by (rewrite Hq; discriminate). eauto.
Qed.

Lemma finish_keeps_other_start (a b : RequestParameters) (p : Performance.t) :
  url a <> url b ->
  has_mark (start_of (instance b)) p ->
  has_mark (start_of (instance b)) (exec (finish (instance a)) p).
Proof.
  intros Hab Hb. unfold has_mark in *.
  assert (Hended : exists e,
             latest_mark (start_of (instance b)) (ended (instance a) p) = Some e)
    by (now apply has_mark_app).
  unfold exec. destruct (first_query (instance a) p) as [| e rest] eqn:Hq.
  - destruct (latest_mark (start_of (instance a)) (ended (instance a) p))
      as [s |] eqn:Hs.
    + rewrite (finish_synthesized (instance a) p s Hq Hs). simpl.
      unfold cleaned. rewrite !latest_mark_filter.
      * now apply has_mark_app.
      * intros x Hx. apply negb_true_iff.
        apply (is_mark_named_other (start_of (instance b))); auto.
        rewrite !start_name. intros K. apply append_cancel_r in K. auto.
      * intros x Hx. apply negb_true_iff.
        apply (is_mark_named_other (start_of (instance b))); auto.
        rewrite start_name, end_name. intros K. symmetry in K.
        exact (end_not_start _ _ K).
      * intros x Hx. apply negb_true_iff.
        exact (is_mark_not_measure _ _ _ Hx).
    + rewrite (finish_throws (instance a) p Hq Hs). exact Hended.
  - rewrite finish_observed by (rewrite Hq; discriminate). exact Hended.
Qed.

Lemma undisturbed_keeps_start (b : RequestParameters) (p q : Performance.t) :
  undisturbed b p q ->
  has_mark (start_of (instance b)) p -> has_mark (start_of (instance b)) q.
Proof.
  intros Hstep Hb. unfold has_mark in *.
  destruct Hstep as [p to | p n started lasted | p r | p a Ha | w m | w | w].
  - exact Hb.
  - simpl. now apply has_mark_app.
  - unfold exec. rewrite constructor_returns. simpl. now apply has_mark_app.
  - now apply finish_keeps_other_start.
  - unfold exec. simpl. now apply has_mark_app.
  - rewrite clearMetrics_log. simpl. rewrite latest_mark_filter; [exact Hb |].
    intros x Hx. apply negb_true_iff. unfold cleared, PerformanceUtils.all_markers.
    rewrite !(is_mark_not_measure _ _ _ Hx). cbn [existsb orb].
    rewrite start_name in Hx.
    rewrite (is_mark_named_other _ _ _
               (not_eq_sym (marker_not_start PerformanceUtils.create (url b))) Hx),
            (is_mark_named_other _ _ _
               (not_eq_sym (marker_not_start PerformanceUtils.load (url b))) Hx),
            (is_mark_named_other _ _ _
               (not_eq_sym (marker_not_start PerformanceUtils.fullLoad (url b))) Hx).
    reflexivity.
  - destruct (getPerformanceMetrics_only_appends w) as [added ->].
    now apply has_mark_app.
Qed.

(** X16: a wrapper can finish whatever went on around it since it was
    constructed, as long as no wrapper of the same URL finished: after the
    constructor, any run of clock ticks, entries recorded by the host,
    constructions of other wrappers, finishes of wrappers of other URLs and
    calls of the recorder leaves a log on which [finish] returns. *)
Theorem finish_returns_when_undisturbed (b : RequestParameters)
    (p0 p : Performance.t) :
  since b (exec (constructor b) p0) p -> finish_returns_at (instance b) p.
Proof.
  intros H. apply finish_returns_started.
  remember (exec (constructor b) p0) as p1 eqn:E.
  induction H as [p1 | p1 q r _ IH Hstep].
  - subst p1. unfold exec. rewrite constructor_returns. unfold has_mark. simpl.
    rewrite latest_mark_snoc_mark. eauto.
  - exact (undisturbed_keeps_start b q r Hstep (IH E)).
Qed.

Lemma finish_returns_when_undisturbed_witness :
  since Samples.tile (exec (constructor Samples.tile) Samples.before_request)
    busy_worker /\
  finish_returns_at (instance Samples.tile) busy_worker.
Proof.
  assert (H : since Samples.tile
                (exec (constructor Samples.tile) Samples.before_request) busy_worker).
  { eapply since_step;
      [| exact (und_clearMetrics Samples.tile (PerformanceUtils.fresh _))].
    eapply since_step;
      [| apply (und_finish Samples.tile _ glyphs); intros K; discriminate K].
    eapply since_step; [| exact (und_advance Samples.tile _ 30%float)].
    eapply since_step; [| exact (und_constructor Samples.tile _ glyphs)].
    eapply since_step; [| exact (und_advance Samples.tile _ 12%float)].
    apply since_start. }
  split; [exact H |].
  exact (finish_returns_when_undisturbed Samples.tile Samples.before_request
           busy_worker H).
Defined.

End WrapperFacts.

(** ** util/performance.ts: a wrapper from construction to finish *)

Module RoundTripFacts.
Import Performance RequestPerformance PerformanceFacts RequestPerformanceFacts.
Import Views Spec Lifecycle.
Import RecorderFacts RecorderSpec WrapperFacts MoreSamples.

Lemma filter_all_id {A : Type} (f : A -> bool) (l : list A) :
  (forall x, In x l -> f x = true) -> filter f l = l.
Proof.
  induction l as [| x r IH]; intros H; [reflexivity |]. simpl.
  rewrite (H x (or_introl eq_refl)). f_equal. apply IH.
  intros y Hy. apply H. now right.
Qed.

Lemma mark_entry_is_named (n m : string) (at_ : number) :
  is_named n (mark_entry m at_) = String.eqb m n.
Proof. reflexivity. Qed.

Lemma start_mark_unnamed (r : RequestParameters) (at_ : number) :
  is_named (url r) (mark_entry (start_of (instance r)) at_) = false.
Proof.
  rewrite mark_entry_is_named. apply String.eqb_neq.
  rewrite start_name. apply append_not_self. discriminate.
Qed.

Lemma end_mark_unnamed (r : RequestParameters) (at_ : number) :
  is_named (url r) (mark_entry (end_of (instance r)) at_) = false.
Proof.
  rewrite mark_entry_is_named. apply String.eqb_neq.
  rewrite end_name. apply append_not_self. discriminate.
Qed.

(** X14: in a log that holds nothing under the URL of a request and no
    mark under the two names derived from it, constructing the wrapper and
    finishing it at time [t] returns one measure under the URL, starting
    when the wrapper was constructed and lasting until [t], and leaves the
    log as it was before the construction. *)
Theorem construct_finish_round_trip (r : RequestParameters) (p0 : Performance.t)
    (t : number) :
  unused r p0 ->
  finish (instance r) (advance t (exec (constructor r) p0)) =
    (Normal [{| name := url r; entryType := MeasureEntry;
                startTime := now p0; duration := (t - now p0)%float |}],
     {| now := t; buffer := buffer p0 |}).
Proof.
  intros H.
  set (p := advance t (exec (constructor r) p0)).
  assert (Hb : buffer p = buffer p0 ++ [mark_entry (start_of (instance r)) (now p0)])
    by reflexivity.
  assert (Hq : first_query (instance r) p = []).
  { rewrite first_query_ended. apply entries_named_nil. intros x Hx.
    unfold ended in Hx. rewrite Hb in Hx.
    apply in_app_or in Hx. destruct Hx as [Hx | [<- | []]].
    - apply in_app_or in Hx. destruct Hx as [Hx | [<- | []]].
      + apply (H x Hx).
      + apply start_mark_unnamed.
    - apply end_mark_unnamed. }
  assert (Hs : latest_mark (start_of (instance r)) (ended (instance r) p) =
               Some (mark_entry (start_of (instance r)) (now p0))).
  { rewrite latest_start_ended, Hb. apply latest_mark_snoc_mark. }
  rewrite (finish_synthesized (instance r) p _ Hq Hs).
  rewrite (cleaned_after_fallback r p _ Hq).
  f_equal. f_equal. rewrite Hb, filter_app. simpl.
  rewrite is_mark_named_mark_entry, String.eqb_refl. simpl.
  rewrite app_nil_r. apply filter_all_id. intros x Hx.
  destruct (H x Hx) as (_ & H1 & H2). now rewrite H1, H2.
Qed.

Lemma construct_finish_round_trip_witness :
  unused Samples.tile Samples.marked_log /\
  finish (instance Samples.tile)
    (advance 400 (exec (constructor Samples.tile) Samples.marked_log)) =
    (Normal [{| name := url Samples.tile; entryType := MeasureEntry;
                startTime := 340.25%float; duration := 59.75%float |}],
     {| now := 400%float; buffer := buffer Samples.marked_log |}).
Proof.
  assert (H : unused Samples.tile Samples.marked_log).
  { intros x Hx. simpl in Hx.
    destruct Hx as [<- | [<- | [<- | []]]]; repeat split; reflexivity. }
  split; [exact H |].
  exact (construct_finish_round_trip Samples.tile Samples.marked_log 400%float H).
Defined.

(** X15: a wrapper finishes once: after a [finish] that took the
    fallback, a second [finish] of the same wrapper, at whatever time,
    throws the SyntaxError of [performance.measure], its start mark having
    gone with the cleanup. *)
Theorem finish_twice_throws (r : RequestParameters) (p : Performance.t)
    (t : number) :
  first_query (instance r) p = [] ->
  has_mark (start_of (instance r)) p ->
  outcome (finish (instance r)) (advance t (exec (finish (instance r)) p)) =
    Throw SyntaxError.
Proof.
  intros Hq [s Hs].
  assert (Hs' : latest_mark (start_of (instance r)) (ended (instance r) p) = Some s)
    by (now rewrite latest_start_ended).
  unfold exec at 1. rewrite (finish_synthesized (instance r) p s Hq Hs').
  rewrite (cleaned_after_fallback r p s Hq). simpl snd.
  set (kept := filter _ (buffer p)).
  set (p' := advance t {| now := now p; buffer := kept |}).
  assert (Hq' : first_query (instance r) p' = []).
  { rewrite first_query_ended. apply entries_named_nil. intros x Hx.
    rewrite first_query_ended in Hq.
    pose proof (proj1 (entries_named_nil _ _) Hq) as Hn.
    unfold ended in Hx. apply in_app_or in Hx. destruct Hx as [Hx | [<- | []]].
    - apply Hn. unfold ended. apply in_or_app. left.
      simpl in Hx. unfold kept in Hx. apply filter_In in Hx. apply Hx.
    - apply end_mark_unnamed. }
  assert (Hn' : latest_mark (start_of (instance r)) (ended (instance r) p') = None).
  { rewrite latest_start_ended. simpl buffer. unfold kept.
    apply PerformanceUtilsFacts.latest_mark_filtered. intros e He. now rewrite He. }
  unfold outcome. now rewrite (finish_throws (instance r) p' Hq' Hn').
Qed.

Lemma finish_twice_throws_witness :
  first_query (instance Samples.tile) Samples.worker_at_finish = [] /\
  has_mark (start_of (instance Samples.tile)) Samples.worker_at_finish /\
  outcome (finish (instance Samples.tile))
    (advance 50 (exec (finish (instance Samples.tile)) Samples.worker_at_finish)) =
    Throw SyntaxError.
Proof.
  assert (H : has_mark (start_of (instance Samples.tile)) Samples.worker_at_finish)
    by (eexists; reflexivity).
  split; [reflexivity | split; [exact H |]].
  exact (finish_twice_throws Samples.tile Samples.worker_at_finish 50%float
           eq_refl H).
Defined.

End RoundTripFacts.

(** ** util/performance.ts: a sample within the budget *)

Module BudgetFacts.
Import Performance PerformanceUtils PerformanceFacts PerformanceUtilsFacts Views.
Import RecorderSpec CountFacts MoreSamples.

Lemma within_budget_none_dropped (sample : list number) :
  within_budget sample = true ->
  filter (fun frameTime => gt frameTime frameTimeTarget) sample = [].
Proof.
  intros H. apply filter_none_nil. intros x Hx.
  unfold within_budget in H. rewrite forallb_forall in H.
  apply negb_true_iff. exact (H x Hx).
Qed.

(** X13: with at least one frame time recorded and none of them above
    1000/60 ms, [percentDroppedFrames] is exactly 0. *)
Theorem within_budget_drops_nothing (w : World) :
  frameTimes w <> [] ->
  (Z.of_nat (List.length (frameTimes w)) < 2 ^ 53)%Z ->
  within_budget (frameTimes w) = true ->
  Spec.lifecycle_marked (performance w) ->
  exists m w',
    getPerformanceMetrics w = (Normal m, w') /\
    percentDroppedFrames m = 0%float.
Proof.
  intros Hne Hlen Hb Hm.
  destruct (getPerformanceMetrics_marked w Hm) as (m & w' & E).
  exists m, w'. split; [exact E |].
  destruct (getPerformanceMetrics_value w w' m E) as ((d1 & d2 & ->) & _).
  unfold metrics_of. cbn [percentDroppedFrames].
  rewrite (within_budget_none_dropped _ Hb). cbn [fold_left].
  apply zero_of_count_percent; [| exact Hlen].
  destruct (frameTimes w); [now destruct Hne | simpl; lia].
Qed.

Lemma within_budget_drops_nothing_witness :
  let w := Samples.recorded smooth in
  frameTimes w <> [] /\
  (Z.of_nat (List.length (frameTimes w)) < 2 ^ 53)%Z /\
  within_budget (frameTimes w) = true /\
  Spec.lifecycle_marked (performance w) /\
  exists m w',
    getPerformanceMetrics w = (Normal m, w') /\
    percentDroppedFrames m = 0%float.
Proof.
  intros w.
  assert (Hne : frameTimes w <> []) by discriminate.
  assert (Hm : Spec.lifecycle_marked (performance w)) by lifecycle_marks.
  split; [exact Hne |]. split; [reflexivity |]. split; [reflexivity |].
  split; [exact Hm |].
  exact (within_budget_drops_nothing w Hne eq_refl eq_refl Hm).
Defined.

End BudgetFacts.
